(** * The installer of poetry: a shallow embedding of
      [poetry/installation/installer.py] and the properties of its [run].

    The [Installer] object is a record; its methods are actions of a small
    monad that threads the object (with the environment and the persisted
    lock it holds handles to), may raise, and records every call made on a
    collaborator ([io], the locker, the solver, the installed repository,
    the pip installer) in the order it is made. *)

From Stdlib Require Import String List Bool Arith ZArith Lia DecimalString.
Import ListNotations.
Open Scope string_scope.
Open Scope list_scope.

(* ===================================================================== *)
(** ** Data model                                                         *)
(* ===================================================================== *)

Definition Requirement := string.

(** [poetry.packages.Package]: the attributes the installer reads.  [requires]
    and [dev_requires] are Python lists, objects reachable from the package. *)
Record Package := mkPackage {
  name : string;
  version : string;
  pretty_name : string;
  full_pretty_version : string;
  requires : list Requirement;
  dev_requires : list Requirement
}.

(** [poetry.puzzle.operations]: [Install(package)],
    [Update(initial_package, target_package)], [Uninstall(package)]. *)
Inductive Operation :=
| Install (package : Package)
| Update (initial_package target_package : Package)
| Uninstall (package : Package).

Definition job_type (op : Operation) : string :=
  match op with
  | Install _ => "install"
  | Update _ _ => "update"
  | Uninstall _ => "uninstall"
  end.

(** Modelled from the spec: [poetry.repositories.Repository], whose source
    is missing.  A PackageSet is an insertion-ordered collection of packages;
    [Repository()] is the empty one, [packages] lists it in insertion order
    and [add_package] inserts at the end. *)
Definition Repository := list Package.

Definition packages (r : Repository) : list Package := r.

Definition add_package (r : Repository) (p : Package) : Repository := r ++ [p].

(** What the installer does to its collaborators, in the order it does it. *)
Inductive Event :=
| IOWriteln (line : string)
| IONewLine
| LockerIsLocked
| LockerLockedRepository (with_dev : bool)
| LockerSetLockData (root : Package) (pkgs : list Package)
| InstalledRepositoryLoad
| SolverSolve (request : list Requirement) (repository baseline : Repository)
| PipInstall (package : Package)
| PipUpdate (source target : Package)
| PipRemove (package : Package).

(** The exceptions of the collaborators; the installer catches none. *)
Inductive Error := ResolutionError | ExecutionError | PersistenceError.

Inductive Result (A : Type) :=
| Returned (a : A)
| Raised (e : Error).
Arguments Returned {A} a.
Arguments Raised {A} e.

(** The collaborators, as functions of the state they act on: [Lock] is the
    persisted lock, [Env] the environment behind [io.venv].  [None] is a
    raised exception. *)
Record World (Env Lock : Type) := mkWorld {
  is_locked : Lock -> bool;
  locked_repository : Lock -> bool -> Repository;
  set_lock_data : Lock -> Package -> list Package -> option (bool * Lock);
  installed_packages : Env -> Repository;
  solve : Repository -> list Requirement -> Repository -> option (list Operation);
  pip_install : Env -> Package -> option Env;
  pip_update : Env -> Package -> Package -> option Env;
  pip_remove : Env -> Package -> option Env
}.
Arguments is_locked {Env Lock} w l.
Arguments locked_repository {Env Lock} w l with_dev.
Arguments set_lock_data {Env Lock} w l root pkgs.
Arguments installed_packages {Env Lock} w e.
Arguments solve {Env Lock} w baseline request repository.
Arguments pip_install {Env Lock} w e p.
Arguments pip_update {Env Lock} w e p q.
Arguments pip_remove {Env Lock} w e p.

(** The [Installer] object: the attributes [__init__] sets, with the state
    of the lock behind [_locker] and of the environment behind [_io.venv]. *)
Record Installer (Env Lock : Type) := mkInstaller {
  _package : Package;
  _repository : Repository;
  _dry_run : bool;
  _update : bool;
  _verbose : bool;
  _write_lock : bool;
  _dev_mode : bool;
  _execute_operations : bool;
  _locker : Lock;
  venv : Env
}.
Arguments mkInstaller {Env Lock}.
Arguments _package {Env Lock} i.
Arguments _repository {Env Lock} i.
Arguments _dry_run {Env Lock} i.
Arguments _update {Env Lock} i.
Arguments _verbose {Env Lock} i.
Arguments _write_lock {Env Lock} i.
Arguments _dev_mode {Env Lock} i.
Arguments _execute_operations {Env Lock} i.
Arguments _locker {Env Lock} i.
Arguments venv {Env Lock} i.

(** [Installer.__init__]: the defaults of the toggles. *)
Definition new_installer {Env Lock} (e : Env) (package : Package) (locker : Lock)
    (repository : Repository) : Installer Env Lock :=
  mkInstaller package repository false false false true true true locker e.

(* ===================================================================== *)
(** ** The monad of the methods                                           *)
(* ===================================================================== *)

Record Outcome (S A : Type) := mkOutcome {
  result : Result A;
  final : S;
  trace : list Event
}.
Arguments mkOutcome {S A}.
Arguments result {S A} o.
Arguments final {S A} o.
Arguments trace {S A} o.

Definition M (S A : Type) := S -> Outcome S A.

Definition ret {S A} (a : A) : M S A := fun s => mkOutcome (Returned a) s [].

Definition bind {S A B} (m : M S A) (f : A -> M S B) : M S B :=
  fun s =>
    match m s with
    | mkOutcome (Returned a) s1 t1 =>
        match f a s1 with
        | mkOutcome r s2 t2 => mkOutcome r s2 (t1 ++ t2)
        end
    | mkOutcome (Raised e) s1 t1 => mkOutcome (Raised e) s1 t1
    end.

Definition raise {S A} (e : Error) : M S A := fun s => mkOutcome (Raised e) s [].

Definition gets {S A} (f : S -> A) : M S A := fun s => mkOutcome (Returned (f s)) s [].

Definition modify {S} (f : S -> S) : M S unit := fun s => mkOutcome (Returned tt) (f s) [].

Definition emit {S} (e : Event) : M S unit := fun s => mkOutcome (Returned tt) s [e].

Definition when {S} (b : bool) (m : M S unit) : M S unit := if b then m else ret tt.

Declare Scope installer_scope.
Delimit Scope installer_scope with installer.
Notation "x <- c ;; k" := (bind c (fun x => k))
  (at level 61, c at next level, right associativity) : installer_scope.
Notation "c ;; k" := (bind c (fun _ => k))
  (at level 61, right associativity) : installer_scope.
Open Scope installer_scope.

(* ===================================================================== *)
(** ** Attribute assignment                                               *)
(* ===================================================================== *)

Section Attributes.
Context {Env Lock : Type}.
Let St := Installer Env Lock.

Definition set_package (p : Package) (i : St) : St :=
  mkInstaller p (_repository i) (_dry_run i) (_update i) (_verbose i)
    (_write_lock i) (_dev_mode i) (_execute_operations i) (_locker i) (venv i).

Definition set_dry_run (b : bool) (i : St) : St :=
  mkInstaller (_package i) (_repository i) b (_update i) (_verbose i)
    (_write_lock i) (_dev_mode i) (_execute_operations i) (_locker i) (venv i).

Definition set_update (b : bool) (i : St) : St :=
  mkInstaller (_package i) (_repository i) (_dry_run i) b (_verbose i)
    (_write_lock i) (_dev_mode i) (_execute_operations i) (_locker i) (venv i).

Definition set_verbose (b : bool) (i : St) : St :=
  mkInstaller (_package i) (_repository i) (_dry_run i) (_update i) b
    (_write_lock i) (_dev_mode i) (_execute_operations i) (_locker i) (venv i).

Definition set_write_lock (b : bool) (i : St) : St :=
  mkInstaller (_package i) (_repository i) (_dry_run i) (_update i) (_verbose i)
    b (_dev_mode i) (_execute_operations i) (_locker i) (venv i).

Definition set_dev_mode (b : bool) (i : St) : St :=
  mkInstaller (_package i) (_repository i) (_dry_run i) (_update i) (_verbose i)
    (_write_lock i) b (_execute_operations i) (_locker i) (venv i).

Definition set_execute_operations (b : bool) (i : St) : St :=
  mkInstaller (_package i) (_repository i) (_dry_run i) (_update i) (_verbose i)
    (_write_lock i) (_dev_mode i) b (_locker i) (venv i).

Definition set_locker (l : Lock) (i : St) : St :=
  mkInstaller (_package i) (_repository i) (_dry_run i) (_update i) (_verbose i)
    (_write_lock i) (_dev_mode i) (_execute_operations i) l (venv i).

Definition set_venv (e : Env) (i : St) : St :=
  mkInstaller (_package i) (_repository i) (_dry_run i) (_update i) (_verbose i)
    (_write_lock i) (_dev_mode i) (_execute_operations i) (_locker i) e.

(** A Python list is an object: [l += more] on the list that is the
    [requires] attribute of a package extends that list in place. *)
Definition extend_requires (more : list Requirement) (p : Package) : Package :=
  mkPackage (name p) (version p) (pretty_name p) (full_pretty_version p)
    (requires p ++ more) (dev_requires p).

End Attributes.

(* ===================================================================== *)
(** ** The reconciler: [_get_operations_from_lock], lines 192-211          *)
(* ===================================================================== *)

(** The inner loop (lines 200-206) over the installed packages, for one
    locked package: it threads [is_installed] and the operations appended. *)
Fixpoint scan_installed (locked : Package) (installed_packages : list Package)
    (is_installed : bool) (ops : list Operation) : bool * list Operation :=
  match installed_packages with
  | [] => (is_installed, ops)
  | installed :: rest =>
      if String.eqb (name locked) (name installed) then
        if negb (String.eqb (version locked) (version installed)) then
          scan_installed locked rest true (ops ++ [Update installed locked])
        else
          scan_installed locked rest true ops
      else
        scan_installed locked rest is_installed ops
  end.

(** The outer loop (lines 198-209) over the locked packages. *)
Fixpoint scan_locked (locked_packages installed_packages : list Package)
    (ops : list Operation) : list Operation :=
  match locked_packages with
  | [] => ops
  | locked :: rest =>
      let (is_installed, ops) := scan_installed locked installed_packages false ops in
      let ops := if negb is_installed then ops ++ [Install locked] else ops in
      scan_locked rest installed_packages ops
  end.

(** The two tests of lines 201 and 203. *)
Definition same_name (locked installed : Package) : bool :=
  String.eqb (name locked) (name installed).

Definition other_version (locked installed : Package) : bool :=
  negb (String.eqb (version locked) (version installed)).

(** Lines 196-211, once [installed_repo] is loaded. *)
Definition operations_from_lock (locked_repository installed_repo : Repository)
    : list Operation :=
  scan_locked (packages locked_repository) (packages installed_repo) [].

(* ===================================================================== *)
(** ** Reporting: the f-strings of lines 137-160                          *)
(* ===================================================================== *)

Definition str (n : nat) : string := NilEmpty.string_of_uint (Nat.to_uint n).

Definition plural (n : nat) : string := if Nat.eqb n 1 then EmptyString else "s".

(** Lines 134-151: the three lists the counts are the lengths of. *)
Fixpoint classify (ops : list Operation) (installs updates uninstalls : list string)
    : list string * list string * list string :=
  match ops with
  | [] => (installs, updates, uninstalls)
  | op :: rest =>
      match op with
      | Install package =>
          classify rest
            (installs ++ [(pretty_name package ++ ":" ++ full_pretty_version package)%string])
            updates uninstalls
      | Update _ target_package =>
          classify rest installs
            (updates ++ [(pretty_name target_package ++ ":"
                          ++ full_pretty_version target_package)%string])
            uninstalls
      | Uninstall package =>
          classify rest installs updates (uninstalls ++ [pretty_name package])
      end
  end.

(** Lines 155-159. *)
Definition operations_line (installs updates uninstalls : nat) : string :=
  ("Package operations: "
   ++ "<info>" ++ str installs ++ "</> install" ++ plural installs ++ ", "
   ++ "<info>" ++ str updates ++ "</> update" ++ plural updates ++ ", "
   ++ "<info>" ++ str uninstalls ++ "</> removal" ++ plural uninstalls)%string.

(* ===================================================================== *)
(** ** The methods of [Installer]                                         *)
(* ===================================================================== *)

Section Methods.
Context {Env Lock : Type} (w : World Env Lock).
Let St := Installer Env Lock.

Definition writeln (line : string) : M St unit := emit (IOWriteln line).

Definition new_line : M St unit := emit IONewLine.

(** [self._locker.is_locked()] *)
Definition locker_is_locked : M St bool :=
  emit LockerIsLocked ;;
  gets (fun i => is_locked w (_locker i)).

(** [self._locker.locked_repository(with_dev)] *)
Definition locker_locked_repository (with_dev : bool) : M St Repository :=
  emit (LockerLockedRepository with_dev) ;;
  gets (fun i => locked_repository w (_locker i) with_dev).

(** [self._locker.set_lock_data(root, packages)] *)
Definition locker_set_lock_data (root : Package) (pkgs : list Package) : M St bool :=
  emit (LockerSetLockData root pkgs) ;;
  l <- gets _locker ;;
  match set_lock_data w l root pkgs with
  | Some (updated, l') => modify (set_locker l') ;; ret updated
  | None => raise PersistenceError
  end.

(** [InstalledRepository.load(self._io.venv)] *)
Definition installed_repository_load : M St Repository :=
  emit InstalledRepositoryLoad ;;
  gets (fun i => installed_packages w (venv i)).

(** [Solver(locked_repository, self._io).solve(request, self._repository)] *)
Definition solver_solve (locked_repository : Repository) (request : list Requirement)
    : M St (list Operation) :=
  repository <- gets _repository ;;
  emit (SolverSolve request repository locked_repository) ;;
  match solve w locked_repository request repository with
  | Some ops => ret ops
  | None => raise ResolutionError
  end.

(** A call of [self._installer]: it changes the environment or raises. *)
Definition pip (call : Event) (effect : Env -> option Env) : M St unit :=
  emit call ;;
  e <- gets venv ;;
  match effect e with
  | Some e' => modify (set_venv e')
  | None => raise ExecutionError
  end.

(** Lines 61-96: the fluent setters and the getters. *)
Definition dry_run (b : bool) : M St unit := modify (set_dry_run b).
Definition is_dry_run : M St bool := gets _dry_run.
Definition verbose (b : bool) : M St unit := modify (set_verbose b).
Definition is_verbose : M St bool := gets _verbose.
Definition dev_mode (b : bool) : M St unit := modify (set_dev_mode b).
Definition is_dev_mode : M St bool := gets _dev_mode.
Definition update (b : bool) : M St unit := modify (set_update b).
Definition is_updating : M St bool := gets _update.
Definition execute_operations (b : bool) : M St unit := modify (set_execute_operations b).

(** Lines 180-190. *)
Definition _execute_install (package : Package) : M St unit :=
  pip (PipInstall package) (fun e => pip_install w e package).

Definition _execute_update (initial_package target_package : Package) : M St unit :=
  pip (PipUpdate initial_package target_package)
      (fun e => pip_update w e initial_package target_package).

Definition _execute_uninstall (package : Package) : M St unit :=
  pip (PipRemove package) (fun e => pip_remove w e package).

(** Lines 172-178: [getattr(self, f'_execute_{method}')(operation)], over the
    three job types. *)
Definition _execute (operation : Operation) : M St unit :=
  match operation with
  | Install package => _execute_install package
  | Update initial_package target_package => _execute_update initial_package target_package
  | Uninstall package => _execute_uninstall package
  end.

(** Lines 192-211. *)
Definition _get_operations_from_lock (locked_repository : Repository)
    : M St (list Operation) :=
  installed_repo <- installed_repository_load ;;
  ret (operations_from_lock locked_repository installed_repo).

(** Lines 99-119 of [_do_install]: the operations to carry out.  [request]
    is the very list [self._package.requires], so [request += ...] extends
    the list of the root package. *)
Definition plan_operations : M St (list Operation) :=
  upd <- gets _update ;;
  locked_repository <-
    (if negb upd then
       with_dev <- gets _dev_mode ;;
       locker_locked_repository with_dev
     else ret []) ;;
  dev <- is_dev_mode ;;
  when dev (modify (fun i => set_package (extend_requires (dev_requires (_package i))
                                                          (_package i)) i)) ;;
  request <- gets (fun i => requires (_package i)) ;;
  upd <- gets _update ;;
  if upd then
    writeln "<info>Updating dependencies</>" ;;
    solver_solve locked_repository request
  else
    writeln "<info>Installing dependencies from lock file</>" ;;
    _get_operations_from_lock locked_repository.

(** Lines 134-161: the summary of the operations. *)
Definition report_operations (ops : list Operation) : M St unit :=
  let '(installs, updates, uninstalls) := classify ops [] [] [] in
  new_line ;;
  writeln (operations_line (length installs) (length updates) (length uninstalls)) ;;
  new_line.

(** Lines 163-170: the loop over the operations. *)
Fixpoint execute_all (ops : list Operation) (local_repo : Repository) : M St Repository :=
  match ops with
  | [] => ret local_repo
  | op :: rest =>
      let local_repo :=
        match op with
        | Install package => add_package local_repo package
        | Update _ target_package => add_package local_repo target_package
        | Uninstall _ => local_repo
        end in
      exe <- gets _execute_operations ;;
      when exe (_execute op) ;;
      execute_all rest local_repo
  end.

Definition is_empty (ops : list Operation) : bool :=
  match ops with [] => true | _ => false end.

(** Lines 98-170.  [local_repo] is filled in place; it is returned here. *)
Definition _do_install (local_repo : Repository) : M St Repository :=
  ops <- plan_operations ;;
  new_line ;;
  when (is_empty ops) (writeln "Nothing to install or update") ;;
  exe <- gets _execute_operations ;;
  when (negb (is_empty ops) && exe) (report_operations ops) ;;
  execute_all ops local_repo.

(** Lines 38-45 of [run]: the toggles forced before planning. *)
Definition force_modes : M St unit :=
  upd <- gets _update ;;
  (if negb upd then
     locked <- locker_is_locked ;;
     when (negb locked) (modify (set_update true))
   else ret tt) ;;
  dry <- is_dry_run ;;
  when dry (verbose true ;;
            modify (set_write_lock false) ;;
            modify (set_execute_operations false)).

(** Lines 50-57 of [run]: the write of the lock. *)
Definition commit_lock (local_repo : Repository) : M St unit :=
  upd <- gets _update ;;
  wl <- gets _write_lock ;;
  when (upd && wl)
    (root <- gets _package ;;
     updated_lock <- locker_set_lock_data root (packages local_repo) ;;
     when updated_lock (writeln "<info>Writing lock file</>")).

(** Lines 37-59. *)
Definition run : M St Z :=
  force_modes ;;
  local_repo <- _do_install [] ;;
  commit_lock local_repo ;;
  ret 0%Z.

End Methods.

(* ===================================================================== *)
(** ** The locker of the specification                                    *)
(* ===================================================================== *)

Section SpecLocker.
Context {C : Type} (C_eq_dec : forall a b : C, {a = b} + {a <> b}).
Context (content : Package -> list Package -> C).

(** Modelled from the spec: [Locker.is_locked], whose source is missing.
    The persisted lock either holds some content or does not exist. *)
Definition spec_is_locked (l : option C) : bool :=
  match l with Some _ => true | None => false end.

(** Modelled from the spec: [Locker.set_lock_data], whose source is missing.
    It compares the content made of the root package and the given packages
    with the persisted content, persists it when they differ, and returns
    whether the persisted content changed. *)
Definition spec_set_lock_data (l : option C) (root : Package) (pkgs : list Package)
    : option (bool * option C) :=
  match l with
  | Some old =>
      if C_eq_dec old (content root pkgs) then Some (false, l)
      else Some (true, Some (content root pkgs))
  | None => Some (true, Some (content root pkgs))
  end.

End SpecLocker.

(** Modelled from the spec: the packages the reconciler finds already
    satisfied, the locked packages an installed package shares the name and
    the version of. *)
Definition already_satisfied (locked installed : Repository) : list Package :=
  filter (fun l => existsb (fun i => String.eqb (name l) (name i)
                                     && String.eqb (version l) (version i)) installed)
         locked.

(* ===================================================================== *)
(** ** Observations on a run                                              *)
(* ===================================================================== *)

Definition is_pip_call (e : Event) : bool :=
  match e with
  | PipInstall _ | PipUpdate _ _ | PipRemove _ => true
  | _ => false
  end.

Definition is_set_lock_data (e : Event) : bool :=
  match e with
  | LockerSetLockData _ _ => true
  | _ => false
  end.

Definition is_locked_repository (e : Event) : bool :=
  match e with
  | LockerLockedRepository _ => true
  | _ => false
  end.

Definition is_solve (e : Event) : bool :=
  match e with
  | SolverSolve _ _ _ => true
  | _ => false
  end.

Definition is_operations_report (e : Event) : bool :=
  match e with
  | IOWriteln line => String.prefix "Package operations: " line
  | _ => false
  end.

Definition is_lock_report (e : Event) : bool :=
  match e with
  | IOWriteln line => String.eqb line "<info>Writing lock file</>"
  | _ => false
  end.

(** The calls made on the pip installer, on [Locker.set_lock_data], on
    [Locker.locked_repository] and on the solver, in order; the lines written
    that report the counts of the operations, and the write of the lock. *)
Definition pip_calls (t : list Event) : list Event := filter is_pip_call t.
Definition set_lock_data_calls (t : list Event) : list Event := filter is_set_lock_data t.
Definition locked_repository_calls (t : list Event) : list Event :=
  filter is_locked_repository t.
Definition solve_calls (t : list Event) : list Event := filter is_solve t.
Definition reported_operations (t : list Event) : list Event :=
  filter is_operations_report t.
Definition reported_lock_writes (t : list Event) : list Event := filter is_lock_report t.

(** The pip call an operation is dispatched to. *)
Definition pip_call (op : Operation) : Event :=
  match op with
  | Install package => PipInstall package
  | Update initial_package target_package => PipUpdate initial_package target_package
  | Uninstall package => PipRemove package
  end.

(** What an operation adds to the result repository. *)
Definition added_package (op : Operation) : list Package :=
  match op with
  | Install package => [package]
  | Update _ target_package => [target_package]
  | Uninstall _ => []
  end.

(** The number of operations of each job type. *)
Definition count_job (job : string) (ops : list Operation) : nat :=
  length (filter (fun op => String.eqb (job_type op) job) ops).

(** What lines 121-161 write for the operations [ops] when
    [_execute_operations] is [exe]. *)
Definition summary (ops : list Operation) (exe : bool) : list Event :=
  [IONewLine]
  ++ (if is_empty ops then [IOWriteln "Nothing to install or update"] else [])
  ++ (if negb (is_empty ops) && exe then
        [IONewLine;
         IOWriteln (operations_line (count_job "install" ops) (count_job "update" ops)
                                    (count_job "uninstall" ops));
         IONewLine]
      else []).

(** The root package once lines 106-108 have gathered the request. *)
Definition gathered {Env Lock} (s : Installer Env Lock) : Package :=
  if _dev_mode s then extend_requires (dev_requires (_package s)) (_package s)
  else _package s.

Definition toggles {Env Lock} (i : Installer Env Lock)
    : bool * bool * bool * bool * bool * bool :=
  (_update i, _dry_run i, _verbose i, _write_lock i, _dev_mode i, _execute_operations i).

(** The questions asked of the locker and of the environment. *)
Definition is_lock_query (e : Event) : bool :=
  match e with
  | LockerIsLocked => true
  | _ => false
  end.

Definition is_installed_load (e : Event) : bool :=
  match e with
  | InstalledRepositoryLoad => true
  | _ => false
  end.

Definition is_locked_calls (t : list Event) : list Event := filter is_lock_query t.
Definition installed_repository_loads (t : list Event) : list Event :=
  filter is_installed_load t.

(** What lines 199-209 append for one locked package, whatever the installed
    packages: an update from each installed package of its name and another
    version, in their order, then its installation when none has its name. *)
Definition emitted_for (installed : list Package) (l : Package) : list Operation :=
  map (fun i => Update i l) (filter (fun i => same_name l i && other_version l i) installed)
  ++ (if existsb (same_name l) installed then [] else [Install l]).

Section Runs.
Context {Env Lock : Type} (w : World Env Lock).

(** The effect on the environment of the pip call an operation is
    dispatched to. *)
Definition pip_effect (e : Env) (op : Operation) : option Env :=
  match op with
  | Install package => pip_install w e package
  | Update initial_package target_package => pip_update w e initial_package target_package
  | Uninstall package => pip_remove w e package
  end.

(** The position of the first operation whose pip call fails, when the
    calls are made in order from the environment [e]. *)
Fixpoint first_failure (e : Env) (ops : list Operation) : option nat :=
  match ops with
  | [] => None
  | op :: rest =>
      match pip_effect e op with
      | Some e' => option_map S (first_failure e' rest)
      | None => Some 0
      end
  end.

(** The environment these calls leave, up to the first that fails. *)
Fixpoint env_after (e : Env) (ops : list Operation) : Env :=
  match ops with
  | [] => e
  | op :: rest =>
      match pip_effect e op with
      | Some e' => env_after e' rest
      | None => e
      end
  end.

(** The installer once [run] has forced its toggles (lines 38-45). *)
Definition forced (s : Installer Env Lock) : Installer Env Lock :=
  final (force_modes w s).

(** The operations [run] plans: what lines 99-119 yield once the toggles
    are forced. *)
Definition planned (s : Installer Env Lock) : Result (list Operation) :=
  result (plan_operations w (forced s)).

(** The result repository: [local_repo] as [_do_install] leaves it in [run]. *)
Definition result_repository (s : Installer Env Lock) : Result Repository :=
  result (_do_install w [] (forced s)).

(** The events of the planning of [run] (lines 38-40 and 99-119). *)
Definition planning (s : Installer Env Lock) : list Event :=
  (if _update s then [] else [LockerIsLocked])
  ++ (if _update (forced s) then
        [IOWriteln "<info>Updating dependencies</>";
         SolverSolve (requires (gathered s)) (_repository s) []]
      else
        [LockerLockedRepository (_dev_mode s);
         IOWriteln "<info>Installing dependencies from lock file</>";
         InstalledRepositoryLoad]).

End Runs.

(* ===================================================================== *)
(** ** A small world to run the installer in                              *)
(* ===================================================================== *)

Module Sample.

Definition pkg (n v : string) : Package := mkPackage n v n v [] [].

Definition A10 := pkg "a" "1.0".
Definition A12 := pkg "a" "1.2".
Definition A20 := pkg "a" "2.0".
Definition B10 := pkg "b" "1.0".
Definition C10 := pkg "c" "1.0".

Definition root : Package :=
  mkPackage "root" "0.1.0" "root" "0.1.0" ["a>=1.0"] ["pytest"].

Definition bare_root : Package := mkPackage "root" "0.1.0" "root" "0.1.0" [] [].

(** The persisted content: the name and version of each package. *)
Definition pins (_ : Package) (pkgs : list Package) : list (string * string) :=
  map (fun p => (name p, version p)) pkgs.

Definition pins_eq_dec (a b : list (string * string)) : {a = b} + {a <> b}.
Proof. repeat decide equality. Defined.

Definition Env := list Package.
Definition Lock := option (list (string * string)).

(** A world whose solver installs whatever is available when something is
    requested, whose locker is the one of the specification, and whose pip
    installer fails on the package named [broken]. *)
Definition pip_ok (e : Env) (p : Package) : option Env :=
  if String.eqb (name p) "broken" then None else Some (e ++ [p]).

Definition world (locked : bool -> Repository) : World Env Lock :=
  mkWorld Env Lock
    spec_is_locked
    (fun _ with_dev => locked with_dev)
    (spec_set_lock_data pins_eq_dec pins)
    (fun e => e)
    (fun _ request repository =>
       Some (match request with [] => [] | _ => map Install repository end))
    pip_ok
    (fun e _ q => pip_ok e q)
    (fun e p => Some e).

Definition installer (e : Env) (l : Lock) (available : Repository) : Installer Env Lock :=
  new_installer e root l available.

Definition broken := pkg "broken" "0.1".

(** No lock, [a 1.2] available: scenario A. *)
Definition fresh_project : Installer Env Lock := installer [] None [A12].

(** No lock, nothing required. *)
Definition bare_project : Installer Env Lock := new_installer [] bare_root None [A12].

(** A lock of [a 1.0] and [b 1.0] with [a 1.0] installed: scenario B. *)
Definition locked_world : World Env Lock := world (fun _ => [A10; B10]).
Definition locked_project : Installer Env Lock :=
  installer [A10] (Some [("a", "1.0"); ("b", "1.0")]) [].

(** No lock; the second of three available packages cannot be installed. *)
Definition breaking_project : Installer Env Lock := installer [] None [A12; broken; B10].


(** The same world with a lock that cannot be written. *)
Definition readonly_world : World Env Lock :=
  mkWorld Env Lock spec_is_locked (fun _ _ => []) (fun _ _ _ => None)
    (fun e => e)
    (fun _ request repository =>
       Some (match request with [] => [] | _ => map Install repository end))
    pip_ok (fun e _ q => pip_ok e q) (fun e p => Some e).

End Sample.

(* ===================================================================== *)
(** ** The reconciler                                                     *)
(* ===================================================================== *)

Section Reconciler.

Lemma scan_installed_spec (l : Package) (I : list Package) :
  forall b ops,
    scan_installed l I b ops =
      (b || existsb (same_name l) I,
       ops ++ map (fun i => Update i l)
                  (filter (fun i => same_name l i && other_version l i) I)).
Proof.
  induction I as [|i I IH]; intros b ops; simpl.
  - now rewrite orb_false_r, app_nil_r.
  - unfold same_name, other_version in *.
    destruct (String.eqb (name l) (name i)); simpl.
    + destruct (String.eqb (version l) (version i)); simpl; rewrite IH.
      * now rewrite orb_true_r.
      * now rewrite orb_true_r, <- app_assoc.
    + now rewrite IH.
Qed.

Lemma scan_locked_spec (I : list Package) :
  forall L ops,
    scan_locked L I ops = ops ++ flat_map (fun l => scan_locked [l] I []) L.
Proof.
  induction L as [|l L IH]; intros ops; simpl.
  - now rewrite app_nil_r.
  - rewrite !scan_installed_spec. simpl.
    destruct (existsb (same_name l) I); simpl; rewrite IH; now rewrite <- ?app_assoc.
Qed.

Lemma scan_one (l : Package) (I : list Package) :
  scan_locked [l] I [] =
    map (fun i => Update i l) (filter (fun i => same_name l i && other_version l i) I)
    ++ (if existsb (same_name l) I then [] else [Install l]).
Proof.
  simpl. rewrite scan_installed_spec. simpl.
  destruct (existsb (same_name l) I); simpl; now rewrite ?app_nil_r.
Qed.

Lemma filter_no_such_name (l : Package) (I : list Package) :
  ~ In (name l) (map name I) -> filter (same_name l) I = [].
Proof.
  induction I as [|k I IH]; intros Hnotin; [reflexivity|].
  simpl. unfold same_name at 1.
  destruct (String.eqb_spec (name l) (name k)) as [E|E].
  - exfalso. apply Hnotin. now left.
  - apply IH. intros H. apply Hnotin. now right.
Qed.

Lemma filter_by_unique_name (l : Package) (I : list Package) :
  NoDup (map name I) ->
  forall i, In i I -> name l = name i -> filter (same_name l) I = [i].
Proof.
  induction I as [|j I IH]; intros Hnd i Hin Hn; [contradiction|].
  simpl in Hnd. inversion Hnd as [|? ? Hnotin Hnd']; subst.
  simpl. unfold same_name at 1. destruct Hin as [->|Hin].
  - rewrite Hn, String.eqb_refl. f_equal.
    apply filter_no_such_name. now rewrite Hn.
  - destruct (String.eqb_spec (name l) (name j)) as [E|E].
    + exfalso. apply Hnotin. rewrite <- E, Hn. now apply in_map.
    + now apply IH.
Qed.

Lemma filter_andb {A} (f g : A -> bool) (l : list A) :
  filter (fun x => f x && g x) l = filter g (filter f l).
Proof.
  induction l as [|x l IH]; [reflexivity|]. simpl.
  destruct (f x); simpl; [destruct (g x)|]; now rewrite IH.
Qed.

Lemma existsb_same_name (l : Package) (I : list Package) :
  existsb (same_name l) I = true <-> exists i, In i I /\ name l = name i.
Proof.
  rewrite existsb_exists. unfold same_name.
  split; intros [i [Hin H]]; exists i; split; auto; now apply String.eqb_eq.
Qed.

Lemma one_locked (l : Package) (I : list Package) :
  NoDup (map name I) ->
  scan_locked [l] I [] =
    match find (same_name l) I with
    | Some i => if other_version l i then [Update i l] else []
    | None => [Install l]
    end.
Proof.
  intros Hnd. rewrite scan_one, filter_andb.
  destruct (find (same_name l) I) as [i|] eqn:F.
  - apply find_some in F. destruct F as [Hin Hsame].
    assert (E : existsb (same_name l) I = true)
      by (apply existsb_exists; now exists i).
    rewrite E, app_nil_r.
    rewrite (filter_by_unique_name l I Hnd i Hin) by now apply String.eqb_eq.
    simpl. now destruct (other_version l i).
  - assert (Hno : ~ In (name l) (map name I)).
    { intros H. apply in_map_iff in H. destruct H as [x [Hx Hin]].
      pose proof (find_none _ _ F x Hin) as Hf. unfold same_name in Hf.
      rewrite Hx, String.eqb_refl in Hf. discriminate. }
    rewrite (filter_no_such_name l I Hno). simpl.
    destruct (existsb (same_name l) I) eqn:E; [|reflexivity].
    apply existsb_same_name in E. destruct E as [i [Hin Hn]].
    exfalso. apply Hno. rewrite Hn. now apply in_map.
Qed.

Lemma unique_by_name (I : list Package) :
  NoDup (map name I) ->
  forall i j, In i I -> In j I -> name i = name j -> i = j.
Proof.
  intros Hnd i j Hi Hj Hn.
  pose proof (filter_by_unique_name i I Hnd i Hi eq_refl) as Fi.
  pose proof (filter_by_unique_name i I Hnd j Hj Hn) as Fj.
  rewrite Fi in Fj. now injection Fj.
Qed.

Lemma other_version_true (l i : Package) :
  other_version l i = true <-> version l <> version i.
Proof.
  unfold other_version. rewrite negb_true_iff. apply String.eqb_neq.
Qed.

Lemma other_version_false (l i : Package) :
  other_version l i = false <-> version l = version i.
Proof.
  unfold other_version. rewrite negb_false_iff. apply String.eqb_eq.
Qed.

Lemma same_name_true (l i : Package) : same_name l i = true <-> name l = name i.
Proof. apply String.eqb_eq. Qed.

Lemma operations_from_lock_by_name (L I : Repository) :
  NoDup (map name I) ->
  operations_from_lock L I = flat_map (fun l => operations_from_lock [l] I) L
  /\ (forall l i, operations_from_lock [l] I = [Update i l]
                  <-> In i I /\ name l = name i /\ version l <> version i)
  /\ (forall l, operations_from_lock [l] I = []
                <-> exists i, In i I /\ name l = name i /\ version l = version i)
  /\ (forall l, operations_from_lock [l] I = [Install l]
                <-> forall i, In i I -> name l <> name i)
  /\ (forall op, In op (operations_from_lock L I) ->
        exists l, In l L /\
          (op = Install l
           \/ exists i, In i I /\ name l = name i /\ op = Update i l)).
Proof.
  intros Hnd. unfold operations_from_lock, packages.
  assert (Hflat : scan_locked L I [] = flat_map (fun l => scan_locked [l] I []) L)
    by apply scan_locked_spec.
  split; [exact Hflat|].
  split; [|split; [|split]].
  - intros l i. rewrite (one_locked l I Hnd).
    destruct (find (same_name l) I) as [j|] eqn:F.
    + apply find_some in F. destruct F as [Hj Hsame].
      apply same_name_true in Hsame.
      destruct (other_version l j) eqn:O.
      * apply other_version_true in O. split.
        -- intros H. injection H as <-. auto.
        -- intros [Hi [Hn _]].
           now rewrite (unique_by_name I Hnd i j Hi Hj) by congruence.
      * apply other_version_false in O. split; [discriminate|].
        intros [Hi [Hn Hv]].
        rewrite (unique_by_name I Hnd i j Hi Hj) in Hv by congruence.
        contradiction.
    + split; [discriminate|]. intros [Hi [Hn _]].
      pose proof (find_none _ _ F i Hi) as Hf.
      apply same_name_true in Hn. congruence.
  - intros l. rewrite (one_locked l I Hnd).
    destruct (find (same_name l) I) as [j|] eqn:F.
    + apply find_some in F. destruct F as [Hj Hsame].
      apply same_name_true in Hsame.
      destruct (other_version l j) eqn:O.
      * apply other_version_true in O. split; [discriminate|].
        intros [i [Hi [Hn Hv]]].
        rewrite (unique_by_name I Hnd i j Hi Hj) in Hv by congruence.
        contradiction.
      * apply other_version_false in O. split; [|reflexivity].
        intros _. now exists j.
    + split; [discriminate|]. intros [i [Hi [Hn _]]].
      pose proof (find_none _ _ F i Hi) as Hf.
      apply same_name_true in Hn. congruence.
  - intros l. rewrite (one_locked l I Hnd).
    destruct (find (same_name l) I) as [j|] eqn:F.
    + apply find_some in F. destruct F as [Hj Hsame].
      apply same_name_true in Hsame.
      split.
      * destruct (other_version l j); discriminate.
      * intros H. now elim (H j Hj).
    + split; [|reflexivity]. intros _ i Hi Hn.
      pose proof (find_none _ _ F i Hi) as Hf.
      apply same_name_true in Hn. congruence.
  - intros op Hop. rewrite Hflat in Hop. apply in_flat_map in Hop.
    destruct Hop as [l [Hl Hop]]. exists l. split; [exact Hl|].
    rewrite (one_locked l I Hnd) in Hop.
    destruct (find (same_name l) I) as [j|] eqn:F.
    + apply find_some in F. destruct F as [Hj Hsame].
      apply same_name_true in Hsame.
      destruct (other_version l j); [|contradiction].
      destruct Hop as [<-|[]]. right. now exists j.
    + destruct Hop as [<-|[]]. now left.
Qed.

(** The scenarios B, C and D of the specification. *)
Example scenario_B :
  operations_from_lock [Sample.A10; Sample.B10] [Sample.A10] = [Install Sample.B10].
Proof. reflexivity. Qed.

Example scenario_C :
  operations_from_lock [Sample.A10] [Sample.A20] = [Update Sample.A20 Sample.A10].
Proof. reflexivity. Qed.

Example scenario_D :
  operations_from_lock [Sample.A10] [Sample.A10; Sample.C10] = [].
Proof. reflexivity. Qed.

(** Two installed packages of one name: an update from each. *)
Example installed_twice :
  operations_from_lock [Sample.A10] [Sample.A12; Sample.A20]
  = [Update Sample.A12 Sample.A10; Update Sample.A20 Sample.A10].
Proof. reflexivity. Qed.

End Reconciler.

(* ===================================================================== *)
(** ** The stages of [run]                                                *)
(* ===================================================================== *)

Section Stages.
Context {Env Lock : Type} (w : World Env Lock).

Ltac unfold_methods :=
  unfold run, commit_lock, force_modes, _do_install, report_operations, plan_operations,
    _get_operations_from_lock, _execute, _execute_install, _execute_update,
    _execute_uninstall, pip, solver_solve, installed_repository_load,
    locker_set_lock_data, locker_locked_repository, locker_is_locked,
    writeln, new_line, dry_run, is_dry_run, verbose, is_verbose, dev_mode,
    is_dev_mode, update, is_updating, execute_operations,
    when, bind, gets, modify, emit, raise, ret.

Lemma force_modes_eq (s : Installer Env Lock) :
  force_modes w s =
    mkOutcome (Returned tt)
      (mkInstaller (_package s) (_repository s) (_dry_run s)
         (_update s || negb (is_locked w (_locker s)))
         (_verbose s || _dry_run s)
         (_write_lock s && negb (_dry_run s))
         (_dev_mode s)
         (_execute_operations s && negb (_dry_run s))
         (_locker s) (venv s))
      (if _update s then [] else [LockerIsLocked]).
Proof.
  destruct s as [pk rp dr up vb wl dv ex lk ev].
  unfold_methods. cbn.
  destruct up, dr; cbn; try destruct (is_locked w lk); cbn; 
  rewrite ?andb_true_r, ?andb_false_r, ?orb_true_r, ?orb_false_r; try reflexivity.
Qed.

Lemma execute_all_dry (ops : list Operation) :
  forall (local_repo : Repository) (s : Installer Env Lock),
    _execute_operations s = false ->
    execute_all w ops local_repo s =
      mkOutcome (Returned (local_repo ++ flat_map added_package ops)) s [].
Proof.
  induction ops as [|op ops IH]; intros local_repo s Hex; cbn.
  - unfold ret. now rewrite app_nil_r.
  - unfold bind, gets, when. rewrite Hex. cbn. rewrite IH by assumption.
    destruct op; cbn; unfold add_package; now rewrite <- ?app_assoc.
Qed.

Lemma execute_all_wet (ops : list Operation) :
  forall (local_repo : Repository) (s : Installer Env Lock),
    _execute_operations s = true ->
    execute_all w ops local_repo s =
      match first_failure w (venv s) ops with
      | None =>
          mkOutcome (Returned (local_repo ++ flat_map added_package ops))
            (set_venv (env_after w (venv s) ops) s) (map pip_call ops)
      | Some k =>
          mkOutcome (Raised ExecutionError)
            (set_venv (env_after w (venv s) ops) s) (map pip_call (firstn (S k) ops))
      end.
Proof.
  induction ops as [|op ops IH]; intros local_repo s Hex.
  - destruct s. cbn. unfold ret. now rewrite app_nil_r.
  - cbn [execute_all first_failure env_after].
    unfold bind at 1 2. unfold gets, when. rewrite Hex.
    replace (_execute w op s) with
      (match pip_effect w (venv s) op with
       | Some e' => mkOutcome (Returned tt) (set_venv e' s) [pip_call op]
       | None => mkOutcome (Raised (A:=unit) ExecutionError) s [pip_call op]
       end).
    2:{ destruct op; unfold_methods; cbn;
        match goal with |- context [match ?x with Some _ => _ | None => _ end] =>
          destruct x end; reflexivity. }
    destruct (pip_effect w (venv s) op) as [e'|].
    + rewrite IH by (destruct s; exact Hex).
      replace (venv (set_venv e' s)) with e' by (now destruct s).
      destruct (first_failure w e' ops) as [k|]; cbn.
      * destruct s; reflexivity.
      * destruct s; cbn. f_equal.
        destruct op; cbn; unfold add_package; now rewrite <- ?app_assoc.
    + cbn. destruct s; reflexivity.
Qed.

Lemma plan_operations_eq (s : Installer Env Lock) :
  let root := if _dev_mode s
              then extend_requires (dev_requires (_package s)) (_package s)
              else _package s in
  plan_operations w s =
    if _update s then
      mkOutcome
        match solve w [] (requires root) (_repository s) with
        | Some ops => Returned ops
        | None => Raised ResolutionError
        end
        (set_package root s)
        [IOWriteln "<info>Updating dependencies</>";
         SolverSolve (requires root) (_repository s) []]
    else
      mkOutcome
        (Returned (operations_from_lock (locked_repository w (_locker s) (_dev_mode s))
                                        (installed_packages w (venv s))))
        (set_package root s)
        [LockerLockedRepository (_dev_mode s);
         IOWriteln "<info>Installing dependencies from lock file</>";
         InstalledRepositoryLoad].
Proof.
  destruct s as [pk rp dr up vb wl dv ex lk ev].
  unfold_methods. cbn.
  destruct up, dv; cbn; try reflexivity;
  match goal with |- context [solve ?a ?b ?c ?d] => destruct (solve a b c d) end;
  reflexivity.
Qed.


Lemma classify_lengths (ops : list Operation) :
  forall a b c,
    let '(i, u, r) := classify ops a b c in
    length i = length a + count_job "install" ops
    /\ length u = length b + count_job "update" ops
    /\ length r = length c + count_job "uninstall" ops.
Proof.
  induction ops as [|op ops IH]; intros a b c.
  - cbn. lia.
  - destruct op; cbn [classify];
      match goal with |- context [classify ops ?x ?y ?z] =>
        specialize (IH x y z); destruct (classify ops x y z) as [[i u] r] end;
      unfold count_job in *; cbn; rewrite ?length_app in IH; cbn in IH; lia.
Qed.

Lemma report_operations_eq (ops : list Operation) (s : Installer Env Lock) :
  report_operations ops s =
    mkOutcome (Returned tt) s
      [IONewLine;
       IOWriteln (operations_line (count_job "install" ops) (count_job "update" ops)
                                  (count_job "uninstall" ops));
       IONewLine].
Proof.
  unfold report_operations.
  pose proof (classify_lengths ops [] [] []) as H.
  destruct (classify ops [] [] []) as [[i u] r]. cbn in H.
  destruct H as [-> [-> ->]]. reflexivity.
Qed.

Lemma do_install_eq (local_repo : Repository) (s : Installer Env Lock) :
  _do_install w local_repo s =
    match plan_operations w s with
    | mkOutcome (Returned ops) s1 t1 =>
        match execute_all w ops local_repo s1 with
        | mkOutcome r s2 t2 =>
            mkOutcome r s2 (t1 ++ summary ops (_execute_operations s1) ++ t2)
        end
    | mkOutcome (Raised e) s1 t1 => mkOutcome (Raised e) s1 t1
    end.
Proof.
  unfold _do_install. unfold bind at 1.
  destruct (plan_operations w s) as [[ops|e] s1 t1]; [|reflexivity].
  unfold bind, new_line, writeln, emit, gets, when, ret, summary.
  destruct ops as [|op ops]; cbn -[execute_all operations_line];
    [|destruct (_execute_operations s1)];
    rewrite ?report_operations_eq; cbn -[execute_all operations_line];
    match goal with |- context [execute_all w ?o ?l ?x] =>
      destruct (execute_all w o l x) as [r s2 t2] end; reflexivity.
Qed.

Lemma commit_lock_eq (local_repo : Repository) (s : Installer Env Lock) :
  commit_lock w local_repo s =
    if _update s && _write_lock s then
      match set_lock_data w (_locker s) (_package s) local_repo with
      | Some (updated, l') =>
          mkOutcome (Returned tt) (set_locker l' s)
            (LockerSetLockData (_package s) local_repo
             :: if updated then [IOWriteln "<info>Writing lock file</>"] else [])
      | None =>
          mkOutcome (Raised PersistenceError) s [LockerSetLockData (_package s) local_repo]
      end
    else mkOutcome (Returned tt) s [].
Proof.
  unfold_methods. unfold packages. cbn.
  destruct (_update s && _write_lock s); [|reflexivity].
  destruct (set_lock_data w (_locker s) (_package s) local_repo) as [[[] l']|]; reflexivity.
Qed.

Lemma run_eq (s : Installer Env Lock) :
  run w s =
    match _do_install w [] (forced w s) with
    | mkOutcome (Returned local_repo) s1 t1 =>
        match commit_lock w local_repo s1 with
        | mkOutcome r s2 t2 =>
            mkOutcome match r with Returned _ => Returned 0%Z | Raised e => Raised e end
              s2 ((if _update s then [] else [LockerIsLocked]) ++ t1 ++ t2)
        end
    | mkOutcome (Raised e) s1 t1 =>
        mkOutcome (Raised e) s1 ((if _update s then [] else [LockerIsLocked]) ++ t1)
    end.
Proof.
  unfold run, forced. unfold bind at 1. rewrite force_modes_eq. cbn [final].
  unfold bind at 1.
  match goal with |- context [_do_install w [] ?x] =>
    destruct (_do_install w [] x) as [[repo|e] s1 t1] end; [|reflexivity].
  unfold bind, ret.
  destruct (commit_lock w repo s1) as [[[]|e] s2 t2]; cbn; now rewrite ?app_nil_r.
Qed.


Lemma forced_eq (s : Installer Env Lock) :
  forced w s =
    mkInstaller (_package s) (_repository s) (_dry_run s)
      (_update s || negb (is_locked w (_locker s)))
      (_verbose s || _dry_run s)
      (_write_lock s && negb (_dry_run s))
      (_dev_mode s)
      (_execute_operations s && negb (_dry_run s))
      (_locker s) (venv s).
Proof. unfold forced. now rewrite force_modes_eq. Qed.

Lemma planned_eq (s : Installer Env Lock) :
  planned w s =
    if _update (forced w s) then
      match solve w [] (requires (gathered s)) (_repository s) with
      | Some ops => Returned ops
      | None => Raised ResolutionError
      end
    else
      Returned (operations_from_lock (locked_repository w (_locker s) (_dev_mode s))
                                     (installed_packages w (venv s))).
Proof.
  unfold planned. rewrite plan_operations_eq, forced_eq. cbn.
  now destruct (_update s || negb (is_locked w (_locker s))).
Qed.

Lemma run_outcome (s : Installer Env Lock) :
  let s1 := set_package (gathered s) (forced w s) in
  let exe := _execute_operations s1 in
  run w s =
    match planned w s with
    | Raised e => mkOutcome (Raised e) s1 (planning w s)
    | Returned ops =>
        match (if exe then first_failure w (venv s) ops else None) with
        | Some k =>
            mkOutcome (Raised ExecutionError)
              (set_venv (env_after w (venv s) ops) s1)
              (planning w s ++ summary ops exe ++ map pip_call (firstn (S k) ops))
        | None =>
            let s2 := if exe then set_venv (env_after w (venv s) ops) s1 else s1 in
            let calls := if exe then map pip_call ops else [] in
            let repo := flat_map added_package ops in
            if _update s1 && _write_lock s1 then
              match set_lock_data w (_locker s) (gathered s) repo with
              | Some (updated, l') =>
                  mkOutcome (Returned 0%Z) (set_locker l' s2)
                    (planning w s ++ summary ops exe ++ calls
                     ++ LockerSetLockData (gathered s) repo
                        :: if updated then [IOWriteln "<info>Writing lock file</>"] else [])
              | None =>
                  mkOutcome (Raised PersistenceError) s2
                    (planning w s ++ summary ops exe ++ calls
                     ++ [LockerSetLockData (gathered s) repo])
              end
            else
              mkOutcome (Returned 0%Z) s2 (planning w s ++ summary ops exe ++ calls)
        end
    end.
Proof.
  cbn zeta. rewrite run_eq, do_install_eq, planned_eq. unfold planning.
  rewrite plan_operations_eq, forced_eq. unfold gathered.
  destruct s as [pk rp dr up vb wl dv ex lk ev].
  cbn -[summary operations_from_lock commit_lock].
  set (root := if dv then extend_requires (dev_requires pk) pk else pk).
  destruct (up || negb (is_locked w lk)) eqn:Hup;
    cbn -[summary operations_from_lock commit_lock];
    [destruct (solve w [] (requires root) rp) as [ops|]
    |set (ops := operations_from_lock _ _)];
    try (destruct (ex && negb dr) eqn:Hex;
         [rewrite execute_all_wet by (cbn; first [reflexivity | exact Hex]);
          cbn -[summary commit_lock];
          destruct (first_failure w ev ops) as [k|]
         |rewrite execute_all_dry by (cbn; first [reflexivity | exact Hex])];
         rewrite ?commit_lock_eq; cbn -[summary];
         try (destruct (wl && negb dr); cbn -[summary];
              try destruct (set_lock_data w lk root (flat_map added_package ops))
                    as [[b l']|]));
    cbn -[summary]; rewrite <- ?app_assoc, ?app_nil_r; reflexivity.
Qed.

End Stages.

(* ===================================================================== *)
(** ** What a run does                                                    *)
(* ===================================================================== *)

Section Observed.
Context {Env Lock : Type} (w : World Env Lock).

Lemma filter_dispatched (p : Event -> bool) (b : bool) (ops : list Operation) :
  (forall op, p (pip_call op) = b) ->
  filter p (map pip_call ops) = if b then map pip_call ops else [].
Proof.
  intros H. induction ops as [|op ops IH]; [now destruct b|].
  cbn. rewrite H, IH. now destruct b.
Qed.

Lemma forced_flags (s : Installer Env Lock) :
  _update (forced w s) = _update s || negb (is_locked w (_locker s))
  /\ _write_lock (forced w s) = _write_lock s && negb (_dry_run s)
  /\ _execute_operations (forced w s) = _execute_operations s && negb (_dry_run s).
Proof. now rewrite forced_eq. Qed.

Lemma result_repository_eq (s : Installer Env Lock) :
  result_repository w s =
    match planned w s with
    | Returned ops =>
        match (if _execute_operations (forced w s)
               then first_failure w (venv s) ops else None) with
        | Some _ => Raised ExecutionError
        | None => Returned (flat_map added_package ops)
        end
    | Raised e => Raised e
    end.
Proof.
  unfold result_repository, planned. rewrite do_install_eq, plan_operations_eq.
  assert (Hv : venv (forced w s) = venv s) by now rewrite forced_eq.
  destruct (_update (forced w s)); cbn [result];
    [destruct (solve w [] _ _) as [ops|]; [|reflexivity]|];
    (destruct (_execute_operations (forced w s)) eqn:Hexe;
     [rewrite execute_all_wet by exact Hexe; cbn [venv set_package]; rewrite Hv;
      match goal with |- context [first_failure w ?e ?o] =>
        destruct (first_failure w e o) end
     |rewrite execute_all_dry by exact Hexe]; reflexivity).
Qed.

(** The cases of [run], by [run_outcome]: each leaves the outcome explicit. *)
Ltac run_cases s :=
  rewrite ?(result_repository_eq s);
  rewrite (run_outcome w s); cbn zeta;
  change (_execute_operations (set_package (gathered s) (forced w s)))
    with (_execute_operations (forced w s));
  change (_update (set_package (gathered s) (forced w s))) with (_update (forced w s));
  change (_write_lock (set_package (gathered s) (forced w s)))
    with (_write_lock (forced w s));
  let ops := fresh "ops" in
  let e := fresh "e" in
  let k := fresh "k" in
  let updated := fresh "updated" in
  let l' := fresh "l'" in
  destruct (planned w s) as [ops|e];
  [ destruct (_execute_operations (forced w s));
    [ destruct (first_failure w (venv s) ops) as [k|] | ];
    try (destruct (_update (forced w s) && _write_lock (forced w s));
         [ destruct (set_lock_data w (_locker s) (gathered s) (flat_map added_package ops))
             as [[updated l']|]; [destruct updated|] | ])
  | ];
  cbn [result final trace].

(** The observation of a trace, piece by piece. *)
Ltac observe s :=
  unfold pip_calls, set_lock_data_calls, solve_calls, locked_repository_calls,
    reported_operations, reported_lock_writes;
  rewrite ?filter_app;
  rewrite ?(filter_dispatched is_pip_call true) by (intros []; reflexivity);
  rewrite ?(filter_dispatched is_set_lock_data false) by (intros []; reflexivity);
  rewrite ?(filter_dispatched is_solve false) by (intros []; reflexivity);
  rewrite ?(filter_dispatched is_locked_repository false) by (intros []; reflexivity);
  rewrite ?(filter_dispatched is_operations_report false) by (intros []; reflexivity);
  rewrite ?(filter_dispatched is_lock_report false) by (intros []; reflexivity);
  unfold planning, summary;
  destruct (_update s); destruct (_update (forced w s));
  try match goal with |- context [is_empty ?o] => destruct o end;
  cbn -[operations_line]; rewrite ?app_nil_r.

Lemma pip_calls_of_run (s : Installer Env Lock) :
  pip_calls (trace (run w s)) =
    match planned w s with
    | Returned ops =>
        if _execute_operations (forced w s) then
          map pip_call match first_failure w (venv s) ops with
                       | Some k => firstn (S k) ops
                       | None => ops
                       end
        else []
    | Raised _ => []
    end.
Proof. run_cases s; observe s; reflexivity. Qed.

Lemma set_lock_data_calls_of_run (s : Installer Env Lock) :
  set_lock_data_calls (trace (run w s)) =
    match result_repository w s with
    | Returned repo =>
        if _update (forced w s) && _write_lock (forced w s)
        then [LockerSetLockData (gathered s) repo] else []
    | Raised _ => []
    end.
Proof. run_cases s; observe s; reflexivity. Qed.

Lemma solve_calls_of_run (s : Installer Env Lock) :
  solve_calls (trace (run w s)) =
    if _update (forced w s)
    then [SolverSolve (requires (gathered s)) (_repository s) []] else [].
Proof. run_cases s; observe s; reflexivity. Qed.

Lemma locked_repository_calls_of_run (s : Installer Env Lock) :
  locked_repository_calls (trace (run w s)) =
    if _update (forced w s) then [] else [LockerLockedRepository (_dev_mode s)].
Proof. run_cases s; observe s; reflexivity. Qed.

Lemma reported_operations_of_run (s : Installer Env Lock) :
  reported_operations (trace (run w s)) =
    match planned w s with
    | Returned ops =>
        if negb (is_empty ops) && _execute_operations (forced w s) then
          [IOWriteln (operations_line (count_job "install" ops) (count_job "update" ops)
                                      (count_job "uninstall" ops))]
        else []
    | Raised _ => []
    end.
Proof. run_cases s; observe s; reflexivity. Qed.


Lemma reported_lock_writes_of_run (s : Installer Env Lock) :
  reported_lock_writes (trace (run w s)) =
    match result_repository w s with
    | Returned repo =>
        if _update (forced w s) && _write_lock (forced w s) then
          match set_lock_data w (_locker s) (gathered s) repo with
          | Some (true, _) => [IOWriteln "<info>Writing lock file</>"]
          | _ => []
          end
        else []
    | Raised _ => []
    end.
Proof. run_cases s; observe s; reflexivity. Qed.

Lemma result_of_run (s : Installer Env Lock) :
  result (run w s) =
    match result_repository w s with
    | Returned repo =>
        if _update (forced w s) && _write_lock (forced w s) then
          match set_lock_data w (_locker s) (gathered s) repo with
          | Some _ => Returned 0%Z
          | None => Raised PersistenceError
          end
        else Returned 0%Z
    | Raised e => Raised e
    end.
Proof. run_cases s; reflexivity. Qed.

Lemma toggles_of_run (s : Installer Env Lock) :
  toggles (final (run w s)) = toggles (forced w s).
Proof. run_cases s; reflexivity. Qed.

Lemma package_of_run (s : Installer Env Lock) : _package (final (run w s)) = gathered s.
Proof. run_cases s; reflexivity. Qed.

Lemma venv_of_run (s : Installer Env Lock) :
  venv (final (run w s)) =
    match planned w s with
    | Returned ops =>
        if _execute_operations (forced w s) then env_after w (venv s) ops else venv s
    | Raised _ => venv s
    end.
Proof. run_cases s; cbn; now rewrite ?forced_eq. Qed.

Lemma locker_of_run (s : Installer Env Lock) :
  _locker (final (run w s)) =
    match result_repository w s with
    | Returned repo =>
        if _update (forced w s) && _write_lock (forced w s) then
          match set_lock_data w (_locker s) (gathered s) repo with
          | Some (_, l') => l'
          | None => _locker s
          end
        else _locker s
    | Raised _ => _locker s
    end.
Proof. run_cases s; cbn; now rewrite ?forced_eq. Qed.

Lemma first_failure_Some (ops : list Operation) :
  forall (e : Env) (k : nat),
    first_failure w e ops = Some k ->
    exists op,
      nth_error ops k = Some op
      /\ first_failure w e (firstn k ops) = None
      /\ pip_effect w (env_after w e (firstn k ops)) op = None.
Proof.
  induction ops as [|op ops IH]; intros e k H; [discriminate|].
  cbn in H. destruct (pip_effect w e op) as [e'|] eqn:Hop.
  - destruct (first_failure w e' ops) as [j|] eqn:Hj; [|discriminate].
    injection H as <-. destruct (IH e' j Hj) as [op' [Hn [Hf He]]].
    exists op'. cbn. rewrite Hop, Hf. auto.
  - injection H as <-. exists op. cbn. auto.
Qed.

Lemma first_failure_None (ops : list Operation) :
  forall (e : Env),
    first_failure w e ops = None ->
    forall k op, nth_error ops k = Some op ->
      pip_effect w (env_after w e (firstn k ops)) op <> None.
Proof.
  induction ops as [|op ops IH]; intros e H k op' Hn; [now destruct k|].
  cbn in H. destruct (pip_effect w e op) as [e'|] eqn:Hop; [|discriminate].
  destruct (first_failure w e' ops) eqn:Hf; [discriminate|].
  destruct k as [|k]; cbn in *.
  - injection Hn as <-. congruence.
  - rewrite Hop. now apply IH.
Qed.

End Observed.

Section Claims.
Context {Env Lock : Type} (w : World Env Lock).

Lemma get_operations_from_lock_eq (L : Repository) (s : Installer Env Lock) :
  _get_operations_from_lock w L s =
    mkOutcome (Returned (operations_from_lock L (installed_packages w (venv s)))) s
              [InstalledRepositoryLoad].
Proof. reflexivity. Qed.

(** C1.  For a locked set [L] and an installed set [I] keyed by name (no
    two installed packages share a name), [_get_operations_from_lock]
    returns what it emits for each locked package, in the order of [L].
    For a locked package [l] it emits [Update i l] alone exactly when the
    installed [i] has the name of [l] and another version (whichever of the
    two versions is the greater), nothing exactly when an installed package
    has the name and the version of [l], and [Install l] alone exactly when
    no installed package has the name of [l].  Every operation it emits is
    an [Install] of a package of [L] or an [Update] towards one: it emits no
    [Uninstall], and nothing for a name that occurs in [I] only. *)
Theorem reconciler_diff_by_name (s : Installer Env Lock) (L : Repository) :
  let I := installed_packages w (venv s) in
  NoDup (map name I) ->
  result (_get_operations_from_lock w L s)
    = Returned (flat_map (fun l => operations_from_lock [l] I) L)
  /\ (forall l i, operations_from_lock [l] I = [Update i l]
                  <-> In i I /\ name l = name i /\ version l <> version i)
  /\ (forall l, operations_from_lock [l] I = []
                <-> exists i, In i I /\ name l = name i /\ version l = version i)
  /\ (forall l, operations_from_lock [l] I = [Install l]
                <-> forall i, In i I -> name l <> name i)
  /\ (forall op, In op (operations_from_lock L I) ->
        exists l, In l L /\
          (op = Install l
           \/ exists i, In i I /\ name l = name i /\ op = Update i l)).
Proof.
  intros I Hnd. rewrite get_operations_from_lock_eq. cbn [result]. fold I.
  destruct (operations_from_lock_by_name L I Hnd) as (<- & H).
  split; [reflexivity|exact H].
Qed.

(** C2, as amended.  With [dry_run] set, [run] calls neither the pip
    installer nor [Locker.set_lock_data], leaves the environment and the
    lock as they are, and plans the operations the run with [dry_run] unset
    plans from the same inputs; but it writes no line of operation counts.
    The run with [dry_run] unset writes that line, with the number of
    operations of each job type, when the plan is not empty and
    [execute_operations] is set. *)
Theorem dry_run_plans_and_reports_no_counts (s : Installer Env Lock) :
  let dry := run w (set_dry_run true s) in
  let wet := run w (set_dry_run false s) in
  pip_calls (trace dry) = []
  /\ set_lock_data_calls (trace dry) = []
  /\ venv (final dry) = venv s
  /\ _locker (final dry) = _locker s
  /\ planned w (set_dry_run true s) = planned w (set_dry_run false s)
  /\ reported_operations (trace dry) = []
  /\ (forall ops,
        planned w (set_dry_run false s) = Returned ops ->
        ops <> [] ->
        _execute_operations s = true ->
        reported_operations (trace wet) =
          [IOWriteln (operations_line (count_job "install" ops) (count_job "update" ops)
                                      (count_job "uninstall" ops))]).
Proof.
  cbn zeta.
  destruct (forced_flags w (set_dry_run true s)) as (_ & Hwl & Hexe).
  cbn in Hwl, Hexe. rewrite andb_false_r in Hwl, Hexe.
  rewrite pip_calls_of_run, set_lock_data_calls_of_run, venv_of_run, locker_of_run,
    !reported_operations_of_run, result_repository_eq, Hwl, Hexe, !andb_false_r.
  refine (conj _ (conj _ (conj _ (conj _ (conj _ (conj _ _))))));
    try (destruct (planned w (set_dry_run true s)) as [[|? ?]|]; reflexivity).
  - rewrite !planned_eq, !forced_eq. reflexivity.
  - intros ops -> Hne Hex.
    destruct (forced_flags w (set_dry_run false s)) as (_ & _ & ->).
    cbn. rewrite Hex. now destruct ops.
Qed.

(** C3, as amended.  When the planned operations are none, [run] writes
    that there is nothing to install or update, writes no operation counts
    and calls the pip installer not at all; it still calls
    [Locker.set_lock_data], with no package, exactly when [update] and
    [write_lock] hold once the toggles are forced. *)
Theorem empty_plan_executes_nothing (s : Installer Env Lock) :
  planned w s = Returned [] ->
  In (IOWriteln "Nothing to install or update") (trace (run w s))
  /\ reported_operations (trace (run w s)) = []
  /\ pip_calls (trace (run w s)) = []
  /\ set_lock_data_calls (trace (run w s)) =
       if _update (forced w s) && _write_lock (forced w s)
       then [LockerSetLockData (gathered s) []] else [].
Proof.
  intros Hplan.
  rewrite reported_operations_of_run, pip_calls_of_run, set_lock_data_calls_of_run,
    result_repository_eq, Hplan.
  split; [|now destruct (_execute_operations (forced w s))].
  rewrite (run_outcome w s), Hplan. cbn zeta.
  assert (Hin : forall exe t u,
             In (IOWriteln "Nothing to install or update") (t ++ summary [] exe ++ u)).
  { intros exe t u. apply in_or_app. right. apply in_or_app. left.
    destruct exe; cbn; auto. }
  destruct (_execute_operations _); cbn [first_failure];
    destruct (_update _ && _write_lock _);
    try destruct (set_lock_data w _ _ _) as [[updated l']|]; cbn [trace];
    rewrite ?app_assoc; rewrite <- ?app_assoc; try apply Hin;
    rewrite <- (app_nil_r (summary [] _)); apply Hin.
Qed.

(** C4, as amended.  After a run that returns, the result repository holds
    exactly what the planned operations add, in their order: the package of
    each [Install], the target package of each [Update] (not the initial
    one), nothing for an [Uninstall], and no package the plan has no
    operation for; and it is what [Locker.set_lock_data] is called with,
    which happens exactly when [update] and [write_lock] hold once the
    toggles are forced. *)
Theorem result_repository_is_what_operations_add
    (s : Installer Env Lock) (ops : list Operation) :
  planned w s = Returned ops ->
  result (run w s) = Returned 0%Z ->
  result_repository w s = Returned (flat_map added_package ops)
  /\ set_lock_data_calls (trace (run w s)) =
       if _update (forced w s) && _write_lock (forced w s)
       then [LockerSetLockData (gathered s) (flat_map added_package ops)] else [].
Proof.
  intros Hplan Hok.
  rewrite result_of_run in Hok. rewrite set_lock_data_calls_of_run.
  rewrite result_repository_eq, Hplan in *.
  destruct (if _execute_operations (forced w s) then _ else None); [discriminate|].
  auto.
Qed.

(** C6.  When [update] holds once the toggles are forced, the solver is
    called once, from an empty baseline, with the runtime requirements of the
    root package followed by its development requirements exactly when
    [dev_mode] is set, and [Locker.locked_repository] is not called. *)
Theorem update_mode_solves_from_an_empty_baseline (s : Installer Env Lock) :
  _update (forced w s) = true ->
  solve_calls (trace (run w s)) =
    [SolverSolve
       (requires (_package s) ++ (if _dev_mode s then dev_requires (_package s) else []))
       (_repository s) []]
  /\ locked_repository_calls (trace (run w s)) = [].
Proof.
  intros Hup. rewrite solve_calls_of_run, locked_repository_calls_of_run, Hup.
  split; [|reflexivity]. unfold gathered.
  destruct (_dev_mode s); cbn; now rewrite ?app_nil_r.
Qed.

(** C7.  When [execute_operations] holds once the toggles are forced, the
    planned operations are dispatched to the pip installer in their order,
    each to the call of its job type.  If no call fails, every operation is
    dispatched.  If the call of the operation at position [k] is the first
    to fail, the calls made are those of the operations up to that one, the
    run raises the failure, and [Locker.set_lock_data] is not called. *)
Theorem operations_dispatched_in_order_until_failure
    (s : Installer Env Lock) (ops : list Operation) :
  _execute_operations (forced w s) = true ->
  planned w s = Returned ops ->
  (exists n, pip_calls (trace (run w s)) = map pip_call (firstn n ops))
  /\ (first_failure w (venv s) ops = None ->
        pip_calls (trace (run w s)) = map pip_call ops)
  /\ (forall k, first_failure w (venv s) ops = Some k ->
        pip_calls (trace (run w s)) = map pip_call (firstn (S k) ops)
        /\ result (run w s) = Raised ExecutionError
        /\ set_lock_data_calls (trace (run w s)) = []).
Proof.
  intros Hexe Hplan.
  rewrite pip_calls_of_run, set_lock_data_calls_of_run, result_of_run,
    result_repository_eq, Hplan, Hexe.
  split; [|split].
  - destruct (first_failure w (venv s) ops) as [k|].
    + now exists (S k).
    + exists (length ops). now rewrite firstn_all.
  - now intros ->.
  - intros k ->. auto.
Qed.

(** C8.  When the locker reports no lock, [run] sets [update], whatever it
    was, and plans with the solver: the solver is called and
    [Locker.locked_repository] is not. *)
Theorem no_lock_forces_update (s : Installer Env Lock) :
  is_locked w (_locker s) = false ->
  _update (forced w s) = true
  /\ _update (final (run w s)) = true
  /\ solve_calls (trace (run w s)) =
       [SolverSolve (requires (gathered s)) (_repository s) []]
  /\ locked_repository_calls (trace (run w s)) = [].
Proof.
  intros Hno.
  assert (Hup : _update (forced w s) = true).
  { rewrite forced_eq. cbn. rewrite Hno. apply orb_true_r. }
  pose proof (toggles_of_run w s) as Ht. unfold toggles in Ht.
  injection Ht as Ht _ _ _ _ _.
  rewrite solve_calls_of_run, locked_repository_calls_of_run, Ht, Hup. auto.
Qed.

(** What [run] does to the runtime requirements of the root package: in
    [dev_mode] it appends the development requirements to them. *)
Lemma run_extends_root_requires (s : Installer Env Lock) :
  requires (_package (final (run w s))) =
    requires (_package s) ++ (if _dev_mode s then dev_requires (_package s) else []).
Proof.
  rewrite package_of_run. unfold gathered.
  destruct (_dev_mode s); cbn; now rewrite ?app_nil_r.
Qed.

(** C10, as amended.  [run] leaves [dry_run] and [dev_mode] as they were;
    it leaves [update] set when it was set or the locker reports no lock;
    and with [dry_run] set it leaves [verbose] set and [write_lock] and
    [execute_operations] unset.  Every other toggle keeps its value. *)
Theorem run_leaves_forced_toggles (s : Installer Env Lock) :
  toggles (final (run w s)) =
    (_update s || negb (is_locked w (_locker s)),
     _dry_run s,
     _verbose s || _dry_run s,
     _write_lock s && negb (_dry_run s),
     _dev_mode s,
     _execute_operations s && negb (_dry_run s)).
Proof. rewrite toggles_of_run, forced_eq. reflexivity. Qed.

End Claims.

Section LockWrite.
Context {Env C : Type} (C_eq_dec : forall a b : C, {a = b} + {a <> b}).
Context (content : Package -> list Package -> C).
Context (w : World Env (option C)).
Hypothesis locker_of_spec :
  forall l root pkgs,
    set_lock_data w l root pkgs = spec_set_lock_data C_eq_dec content l root pkgs.

(** C5.  With the locker of the specification, [run] changes the persisted
    lock exactly when [update] and [write_lock] hold once the toggles are
    forced and the content of the result repository that [_do_install]
    returns differs from the persisted content; the lock does not change
    without a call of [Locker.set_lock_data]; and the line that reports the
    write of the lock is written only when [Locker.set_lock_data] returned
    true, having changed the lock. *)
Theorem lock_written_iff_update_write_lock_and_new_content
    (s : Installer Env (option C)) :
  (_locker (final (run w s)) <> _locker s <->
     _update (forced w s) = true
     /\ _write_lock (forced w s) = true
     /\ exists repo, result_repository w s = Returned repo
                     /\ _locker s <> Some (content (gathered s) repo))
  /\ (set_lock_data_calls (trace (run w s)) = [] ->
        _locker (final (run w s)) = _locker s)
  /\ (reported_lock_writes (trace (run w s)) <> [] ->
        exists repo l',
          result_repository w s = Returned repo
          /\ set_lock_data w (_locker s) (gathered s) repo = Some (true, l')
          /\ _locker (final (run w s)) <> _locker s).
Proof.
  rewrite locker_of_run, set_lock_data_calls_of_run, reported_lock_writes_of_run.
  destruct (result_repository w s) as [repo|e].
  - destruct (_update (forced w s)), (_write_lock (forced w s)); cbn [andb];
      try (split; [|split]; [split; [congruence|intros (? & ? & _); discriminate]
                            |reflexivity|congruence]).
    rewrite locker_of_spec. unfold spec_set_lock_data.
    destruct (_locker s) as [old|].
    + destruct (C_eq_dec old (content (gathered s) repo)) as [->|Hne].
      * split; [|split]; [|discriminate|congruence].
        split; [congruence|]. intros (_ & _ & repo' & Hr & Hc).
        injection Hr as <-. congruence.
      * assert (Hc : Some (content (gathered s) repo) <> Some old) by congruence.
        split; [|split]; [|discriminate|].
        -- split; [|intros _; exact Hc]. intros _.
           split; [reflexivity|]. split; [reflexivity|].
           exists repo. split; [reflexivity|congruence].
        -- intros _. exists repo, (Some (content (gathered s) repo)).
           rewrite locker_of_spec. cbn.
           destruct (C_eq_dec old (content (gathered s) repo)); [contradiction|auto].
    + split; [|split]; [|discriminate|].
      * split; [|discriminate]. intros _.
        split; [reflexivity|]. split; [reflexivity|].
        exists repo. split; [reflexivity|discriminate].
      * intros _. exists repo, (Some (content (gathered s) repo)).
        rewrite locker_of_spec. cbn.
        split; [reflexivity|]. split; [reflexivity|discriminate].
  - split; [|split]; [|reflexivity|congruence].
    split; [congruence|]. intros (_ & _ & repo & Hr & _). discriminate.
Qed.

End LockWrite.

(* ===================================================================== *)
(** ** The properties at work on the sample world                         *)
(* ===================================================================== *)

Section Witnesses.
Import Sample.

Lemma reconciler_diff_by_name_witness :
  NoDup (map name (installed_packages locked_world (venv (installer [A20; C10] None []))))
  /\ result (_get_operations_from_lock locked_world [A10; B10]
               (installer [A20; C10] None []))
     = Returned [Update A20 A10; Install B10].
Proof.
  assert (H : NoDup (map name (installed_packages locked_world
                                 (venv (installer [A20; C10] None []))))).
  { repeat constructor; cbn; intuition discriminate. }
  split; [exact H|].
  exact (proj1 (reconciler_diff_by_name locked_world (installer [A20; C10] None [])
                  [A10; B10] H)).
Defined.

Lemma update_mode_witness :
  _update (forced (world (fun _ => [])) fresh_project) = true
  /\ solve_calls (trace (run (world (fun _ => [])) fresh_project)) =
       [SolverSolve ["a>=1.0"; "pytest"] [A12] []]
  /\ locked_repository_calls (trace (run (world (fun _ => [])) fresh_project)) = [].
Proof.
  split; [reflexivity|].
  exact (update_mode_solves_from_an_empty_baseline (world (fun _ => [])) fresh_project
           eq_refl).
Defined.

Lemma no_lock_witness :
  is_locked (world (fun _ => [])) (_locker fresh_project) = false
  /\ _update fresh_project = false
  /\ _update (final (run (world (fun _ => [])) fresh_project)) = true.
Proof.
  split; [reflexivity|]. split; [reflexivity|].
  exact (proj1 (proj2 (no_lock_forces_update (world (fun _ => [])) fresh_project eq_refl))).
Defined.

Lemma dispatch_witness :
  planned (world (fun _ => [])) breaking_project
    = Returned [Install A12; Install broken; Install B10]
  /\ first_failure (world (fun _ => [])) [] [Install A12; Install broken; Install B10]
     = Some 1
  /\ pip_calls (trace (run (world (fun _ => [])) breaking_project))
     = [PipInstall A12; PipInstall broken]
  /\ result (run (world (fun _ => [])) breaking_project) = Raised ExecutionError
  /\ set_lock_data_calls (trace (run (world (fun _ => [])) breaking_project)) = [].
Proof.
  split; [reflexivity|]. split; [reflexivity|].
  exact (proj2 (proj2 (operations_dispatched_in_order_until_failure
                         (world (fun _ => [])) breaking_project
                         [Install A12; Install broken; Install B10]
                         eq_refl eq_refl)) 1 eq_refl).
Defined.

Lemma empty_plan_witness :
  planned (world (fun _ => [])) bare_project = Returned []
  /\ pip_calls (trace (run (world (fun _ => [])) bare_project)) = []
  /\ set_lock_data_calls (trace (run (world (fun _ => [])) bare_project))
     = [LockerSetLockData bare_root []].
Proof.
  split; [reflexivity|].
  exact (proj2 (proj2 (empty_plan_executes_nothing (world (fun _ => [])) bare_project
                         eq_refl))).
Defined.

Lemma result_repository_witness :
  result (run (world (fun _ => [])) fresh_project) = Returned 0%Z
  /\ result_repository (world (fun _ => [])) fresh_project = Returned [A12]
  /\ set_lock_data_calls (trace (run (world (fun _ => [])) fresh_project))
     = [LockerSetLockData (gathered fresh_project) [A12]].
Proof.
  split; [reflexivity|].
  exact (result_repository_is_what_operations_add (world (fun _ => [])) fresh_project
           [Install A12] eq_refl eq_refl).
Defined.

Lemma lock_written_witness :
  (forall l root pkgs,
     set_lock_data (world (fun _ => [])) l root pkgs
     = spec_set_lock_data pins_eq_dec pins l root pkgs)
  /\ (_locker (final (run (world (fun _ => [])) fresh_project)) <> _locker fresh_project
      <-> _update (forced (world (fun _ => [])) fresh_project) = true
          /\ _write_lock (forced (world (fun _ => [])) fresh_project) = true
          /\ exists repo,
               result_repository (world (fun _ => [])) fresh_project = Returned repo
               /\ _locker fresh_project <> Some (pins (gathered fresh_project) repo)).
Proof.
  split; [reflexivity|].
  exact (proj1 (lock_written_iff_update_write_lock_and_new_content pins_eq_dec pins
                  (world (fun _ => [])) (fun _ _ _ => eq_refl) fresh_project)).
Defined.

(** Scenario A of the specification. *)
Example scenario_A :
  let out := run (world (fun _ => [])) fresh_project in
  result out = Returned 0%Z
  /\ _update (final out) = true
  /\ planned (world (fun _ => [])) fresh_project = Returned [Install A12]
  /\ venv (final out) = [A12]
  /\ _locker (final out) = Some [("a", "1.2")]
  /\ reported_lock_writes (trace out) = [IOWriteln "<info>Writing lock file</>"].
Proof. cbv zeta. repeat split; reflexivity. Qed.

(** C2 fails as stated: from no lock and one available package, the run
    with [dry_run] unset writes the line of operation counts and the run
    with [dry_run] set does not. *)
Lemma dry_run_reports_no_counts :
  ~ (pip_calls (trace (run (world (fun _ => [])) (set_dry_run true fresh_project))) = []
     /\ set_lock_data_calls
          (trace (run (world (fun _ => [])) (set_dry_run true fresh_project))) = []
     /\ reported_operations
          (trace (run (world (fun _ => [])) (set_dry_run true fresh_project)))
        = reported_operations
            (trace (run (world (fun _ => [])) (set_dry_run false fresh_project)))).
Proof. intros (_ & _ & H). vm_compute in H. discriminate H. Qed.

(** C3 fails as stated: from no lock and no requirement the plan is empty,
    and [run] still calls [Locker.set_lock_data]. *)
Lemma empty_plan_still_calls_set_lock_data :
  ~ (planned (world (fun _ => [])) bare_project = Returned [] ->
     In (IOWriteln "Nothing to install or update")
        (trace (run (world (fun _ => [])) bare_project))
     /\ pip_calls (trace (run (world (fun _ => [])) bare_project)) = []
     /\ set_lock_data_calls (trace (run (world (fun _ => [])) bare_project)) = []).
Proof.
  intros H. destruct (H eq_refl) as (_ & _ & Hcalls).
  vm_compute in Hcalls. discriminate Hcalls.
Qed.

(** C4 fails as stated: replaying a lock of two packages, one of them
    installed already, the result repository holds the other one only. *)
Lemma result_repository_misses_satisfied_packages :
  ~ (result (run locked_world locked_project) = Returned 0%Z ->
     exists repo,
       result_repository locked_world locked_project = Returned repo
       /\ forall p,
            In p repo <->
            In p (already_satisfied
                    (locked_repository locked_world (_locker locked_project)
                                       (_dev_mode locked_project))
                    (installed_packages locked_world (venv locked_project)))
            \/ In p (flat_map added_package
                       (operations_from_lock
                          (locked_repository locked_world (_locker locked_project)
                                             (_dev_mode locked_project))
                          (installed_packages locked_world (venv locked_project))))).
Proof.
  intros H. destruct (H eq_refl) as (repo & Hrepo & Hin).
  vm_compute in Hrepo. injection Hrepo as <-.
  assert (HA : In A10 [B10]) by (apply Hin; left; vm_compute; auto).
  destruct HA as [HA|[]]. discriminate HA.
Qed.

(** C10 fails as stated: from no lock, [run] leaves [update] set. *)
Lemma run_changes_update_toggle :
  toggles (final (run (world (fun _ => [])) fresh_project)) <> toggles fresh_project.
Proof. vm_compute. discriminate. Qed.

(** C9.  The root package requires one package at run time and one more
    for development; after a run in [dev_mode] its runtime requirements are
    both. *)
Lemma run_grows_root_requires :
  requires (_package fresh_project) = ["a>=1.0"]
  /\ _dev_mode fresh_project = true
  /\ requires (_package (final (run (world (fun _ => [])) fresh_project)))
     = ["a>=1.0"; "pytest"].
Proof. repeat split; reflexivity. Qed.

(** A second run, with [dev_mode] unset after the first: the solver is
    asked for the development requirement all the same. *)
Example second_run_requests_what_the_first_appended :
  let w := world (fun _ => []) in
  let again := set_dev_mode false (final (run w fresh_project)) in
  _dev_mode again = false
  /\ solve_calls (trace (run w again)) = [SolverSolve ["a>=1.0"; "pytest"] [A12] []].
Proof. cbv zeta. split; reflexivity. Qed.

End Witnesses.

(* ===================================================================== *)
(** ** The reconciler, names repeated or not                              *)
(* ===================================================================== *)

Section ReconcilerInGeneral.

Lemma flat_map_nil {A B} (f : A -> list B) (l : list A) :
  flat_map f l = [] <-> forall x, In x l -> f x = [].
Proof.
  induction l as [|a l IH]; cbn.
  - split; [intros _ x []|reflexivity].
  - split.
    + intros H. apply app_eq_nil in H. destruct H as [Ha Hl].
      intros x [<-|Hx]; [exact Ha|]. now apply IH.
    + intros H. rewrite (H a) by now left. cbn. apply IH. intros x Hx. apply H. now right.
Qed.

Lemma filter_nil {A} (p : A -> bool) (l : list A) :
  filter p l = [] <-> forall x, In x l -> p x = false.
Proof.
  induction l as [|a l IH]; cbn.
  - split; [intros _ x []|reflexivity].
  - destruct (p a) eqn:Ha; split.
    + discriminate.
    + intros H. specialize (H a (or_introl eq_refl)). congruence.
    + intros H x [<-|Hx]; [exact Ha|]. now apply IH.
    + intros H. apply IH. intros x Hx. apply H. now right.
Qed.

Lemma operations_from_lock_flat (L I : Repository) :
  operations_from_lock L I = flat_map (emitted_for I) L.
Proof.
  unfold operations_from_lock, packages. rewrite scan_locked_spec. cbn [app].
  apply flat_map_ext. intros l. apply scan_one.
Qed.

(** X2.  Whatever the locked and the installed packages (names may repeat),
    [Update i l] is planned exactly when [l] is locked, [i] is installed and
    they have one name and two versions; [Install l] exactly when [l] is
    locked and no installed package has its name; an [Uninstall] never. *)
Theorem operations_from_lock_members (L I : Repository) :
  (forall i l, In (Update i l) (operations_from_lock L I)
               <-> In l L /\ In i I /\ name l = name i /\ version l <> version i)
  /\ (forall l, In (Install l) (operations_from_lock L I)
                <-> In l L /\ forall i, In i I -> name l <> name i)
  /\ (forall p, ~ In (Uninstall p) (operations_from_lock L I)).
Proof.
  rewrite operations_from_lock_flat. unfold emitted_for.
  split; [|split].
  - intros i l. rewrite in_flat_map. split.
    + intros (l' & Hl & Hin). apply in_app_or in Hin. destruct Hin as [Hin|Hin].
      * apply in_map_iff in Hin. destruct Hin as (i' & Heq & Hf).
        injection Heq as <- <-. apply filter_In in Hf. destruct Hf as [Hi Hb].
        apply andb_true_iff in Hb. destruct Hb as [Hn Hv].
        apply same_name_true in Hn. apply other_version_true in Hv. auto.
      * destruct (existsb (same_name l') I); [contradiction|].
        destruct Hin as [Heq|[]]. discriminate.
    + intros (Hl & Hi & Hn & Hv). exists l. split; [exact Hl|].
      apply in_or_app. left. apply in_map_iff. exists i. split; [reflexivity|].
      apply filter_In. split; [exact Hi|].
      apply andb_true_iff. split; [now apply same_name_true|now apply other_version_true].
  - intros l. rewrite in_flat_map. split.
    + intros (l' & Hl & Hin). apply in_app_or in Hin. destruct Hin as [Hin|Hin].
      * apply in_map_iff in Hin. destruct Hin as (i' & Heq & _). discriminate.
      * destruct (existsb (same_name l') I) eqn:E; [contradiction|].
        destruct Hin as [Heq|[]]. injection Heq as <-. split; [exact Hl|].
        intros i Hi Hn.
        assert (existsb (same_name l') I = true)
          by (apply existsb_same_name; now exists i).
        congruence.
    + intros (Hl & Hno). exists l. split; [exact Hl|].
      apply in_or_app. right.
      destruct (existsb (same_name l) I) eqn:E; [|now left].
      apply existsb_same_name in E. destruct E as (i & Hi & Hn). now elim (Hno i Hi).
  - intros p Hin. apply in_flat_map in Hin. destruct Hin as (l & _ & Hin).
    apply in_app_or in Hin. destruct Hin as [Hin|Hin].
    + apply in_map_iff in Hin. destruct Hin as (i & Heq & _). discriminate.
    + destruct (existsb (same_name l) I); [contradiction|].
      destruct Hin as [Heq|[]]. discriminate.
Qed.

Lemma no_operations_iff (L I : Repository) :
  operations_from_lock L I = [] <->
  forall l, In l L ->
    (exists i, In i I /\ name l = name i)
    /\ (forall i, In i I -> name l = name i -> version l = version i).
Proof.
  rewrite operations_from_lock_flat, flat_map_nil. unfold emitted_for.
  split; intros H l Hl; specialize (H l Hl).
  - apply app_eq_nil in H. destruct H as [Hu Hi].
    destruct (existsb (same_name l) I) eqn:E; [|discriminate]. split.
    + now apply existsb_same_name.
    + intros i Hin Hn. apply map_eq_nil in Hu.
      pose proof (proj1 (filter_nil _ _) Hu i Hin) as Hb. cbn in Hb.
      apply same_name_true in Hn. rewrite Hn in Hb. cbn in Hb.
      now apply other_version_false.
  - destruct H as [Hex Hv].
    rewrite (proj2 (existsb_same_name l I) Hex), app_nil_r.
    replace (filter _ I) with (@nil Package); [reflexivity|].
    symmetry. apply filter_nil. intros i Hin.
    destruct (same_name l i) eqn:Hn; [|reflexivity]. cbn.
    apply other_version_false. apply Hv; [exact Hin|]. now apply same_name_true.
Qed.

(** X4.  When the installed packages are keyed by name and every locked
    package is among them, nothing is planned. *)
Theorem replaying_onto_the_locked_packages_plans_nothing (L I : Repository) :
  NoDup (map name I) ->
  incl L I ->
  operations_from_lock L I = [].
Proof.
  intros Hnd Hincl. apply no_operations_iff.
  intros l Hl. split.
  - exists l. split; [now apply Hincl|reflexivity].
  - intros i Hi Hn.
    now rewrite (unique_by_name I Hnd l i (Hincl l Hl) Hi Hn).
Qed.

(** X1.  Whatever the locked and the installed packages (names may repeat),
    the plan is, for each locked package in order, an update from every
    installed package of its name and another version, in the order they are
    installed, then its installation when no installed package has its
    name. *)
Theorem operations_from_lock_in_general (L I : Repository) :
  operations_from_lock L I = flat_map (emitted_for I) L.
Proof. exact (operations_from_lock_flat L I). Qed.

(** X3.  Nothing is planned exactly when every locked package has an
    installed package of its name and every installed package of its name
    has its version. *)
Theorem nothing_to_do_iff_locked_versions_installed (L I : Repository) :
  operations_from_lock L I = [] <->
  forall l, In l L ->
    (exists i, In i I /\ name l = name i)
    /\ (forall i, In i I -> name l = name i -> version l = version i).
Proof. exact (no_operations_iff L I). Qed.

End ReconcilerInGeneral.

(* ===================================================================== *)
(** ** Failures, modes and what a run leaves behind                       *)
(* ===================================================================== *)

Section Further.
Context {Env Lock : Type} (w : World Env Lock).

Lemma bind_modify {A} (f : Installer Env Lock -> Installer Env Lock)
    (k : unit -> M (Installer Env Lock) A) (s : Installer Env Lock) :
  bind (modify f) k s = k tt (f s).
Proof. unfold bind, modify. now destruct (k tt (f s)). Qed.

Lemma env_after_first_failure (ops : list Operation) :
  forall (e : Env) (k : nat),
    first_failure w e ops = Some k -> env_after w e ops = env_after w e (firstn k ops).
Proof.
  induction ops as [|op ops IH]; intros e k H; [discriminate|].
  cbn in H. destruct (pip_effect w e op) as [e'|] eqn:Hop.
  - destruct (first_failure w e' ops) as [j|] eqn:Hj; [|discriminate].
    injection H as <-. cbn. rewrite Hop. now apply IH.
  - injection H as <-. cbn. now rewrite Hop.
Qed.

(** The cases of [run], by [run_outcome]. *)
Ltac outcome_cases s :=
  rewrite (run_outcome w s); cbn zeta;
  change (_execute_operations (set_package (gathered s) (forced w s)))
    with (_execute_operations (forced w s));
  change (_update (set_package (gathered s) (forced w s))) with (_update (forced w s));
  change (_write_lock (set_package (gathered s) (forced w s)))
    with (_write_lock (forced w s)).


(** X6.  When the pip call of the operation at position [k] is the first
    to fail, the environment is left as the [k] calls before it made it
    (nothing is rolled back), the lock is as it was, no write of the lock is
    reported, and the counts of the whole plan were reported before the
    first call. *)
Theorem execution_failure_keeps_what_was_done
    (s : Installer Env Lock) (ops : list Operation) (k : nat) :
  _execute_operations (forced w s) = true ->
  planned w s = Returned ops ->
  first_failure w (venv s) ops = Some k ->
  venv (final (run w s)) = env_after w (venv s) (firstn k ops)
  /\ _locker (final (run w s)) = _locker s
  /\ reported_lock_writes (trace (run w s)) = []
  /\ reported_operations (trace (run w s)) =
       [IOWriteln (operations_line (count_job "install" ops) (count_job "update" ops)
                                   (count_job "uninstall" ops))].
Proof.
  intros Hexe Hplan Hfail.
  rewrite venv_of_run, locker_of_run, reported_lock_writes_of_run,
    reported_operations_of_run, result_repository_eq, Hplan, Hexe, Hfail.
  rewrite (env_after_first_failure ops _ _ Hfail).
  destruct ops; [discriminate|]. auto.
Qed.

(** X7.  When [Locker.set_lock_data] raises, [run] raises its
    [PersistenceError] after the one call, reports no write of the lock and
    leaves the lock as it was, although every planned operation has been
    dispatched to the pip installer (when operations are executed). *)
Theorem persistence_failure_after_every_operation
    (s : Installer Env Lock) (repo : Repository) :
  result_repository w s = Returned repo ->
  _update (forced w s) = true ->
  _write_lock (forced w s) = true ->
  set_lock_data w (_locker s) (gathered s) repo = None ->
  result (run w s) = Raised PersistenceError
  /\ set_lock_data_calls (trace (run w s)) = [LockerSetLockData (gathered s) repo]
  /\ reported_lock_writes (trace (run w s)) = []
  /\ _locker (final (run w s)) = _locker s
  /\ (forall ops, planned w s = Returned ops ->
        repo = flat_map added_package ops
        /\ pip_calls (trace (run w s)) =
             if _execute_operations (forced w s) then map pip_call ops else []).
Proof.
  intros Hrepo Hup Hwl Hset.
  rewrite result_of_run, set_lock_data_calls_of_run, reported_lock_writes_of_run,
    locker_of_run, pip_calls_of_run, Hrepo, Hup, Hwl, Hset. cbn.
  refine (conj eq_refl (conj eq_refl (conj eq_refl (conj eq_refl _)))).
  intros ops Hplan. rewrite result_repository_eq, Hplan in Hrepo. rewrite Hplan.
  destruct (_execute_operations (forced w s)).
  - destruct (first_failure w (venv s) ops); [discriminate|]. injection Hrepo as <-. auto.
  - injection Hrepo as <-. auto.
Qed.

(** X8.  [run] returns nothing but 0, and it returns exactly when the
    planning returns operations, no pip call fails when operations are
    executed, and [Locker.set_lock_data] does not raise when it is called. *)
Theorem run_returns_zero_unless_a_collaborator_raises (s : Installer Env Lock) :
  (forall z, result (run w s) = Returned z -> z = 0%Z)
  /\ (result (run w s) = Returned 0%Z <->
        exists ops,
          planned w s = Returned ops
          /\ (_execute_operations (forced w s) = true ->
                first_failure w (venv s) ops = None)
          /\ (_update (forced w s) && _write_lock (forced w s) = true ->
                set_lock_data w (_locker s) (gathered s) (flat_map added_package ops)
                <> None)).
Proof.
  rewrite result_of_run, result_repository_eq. split.
  - intros z.
    destruct (planned w s) as [ops|]; [|discriminate].
    destruct (if _execute_operations (forced w s) then _ else None); [discriminate|].
    destruct (_update (forced w s) && _write_lock (forced w s));
      [destruct (set_lock_data w _ _ _)|]; congruence.
  - destruct (planned w s) as [ops|e];
      [|split; [discriminate|intros (ops & Hp & _); discriminate]].
    destruct (_execute_operations (forced w s));
      [destruct (first_failure w (venv s) ops) as [k|] eqn:Hfail|];
      try (split; [discriminate|]; intros (ops' & Hp & Hf & _);
           injection Hp as <-; specialize (Hf eq_refl); congruence);
      (destruct (_update (forced w s) && _write_lock (forced w s));
       [destruct (set_lock_data w _ _ _) eqn:Hset|]);
      try (split; [discriminate|]; intros (ops' & Hp & _ & Hs);
           injection Hp as <-; now elim (Hs eq_refl));
      (split; [|reflexivity]; intros _; exists ops;
       split; [reflexivity|]; split; congruence).
Qed.


(** The filter of a trace, piece by piece. *)
Ltac filter_trace s :=
  unfold is_locked_calls, installed_repository_loads;
  rewrite ?filter_app;
  rewrite ?(filter_dispatched is_lock_query false) by (intros []; reflexivity);
  rewrite ?(filter_dispatched is_installed_load false) by (intros []; reflexivity);
  unfold planning, summary;
  destruct (_update s); destruct (_update (forced w s));
  try match goal with |- context [is_empty ?o] => destruct o end;
  cbn -[operations_line]; rewrite ?app_nil_r.

Ltac all_cases s :=
  outcome_cases s;
  let ops := fresh "ops" in
  let e := fresh "e" in
  let k := fresh "k" in
  let updated := fresh "updated" in
  let l' := fresh "l'" in
  destruct (planned w s) as [ops|e];
  [ destruct (_execute_operations (forced w s));
    [ destruct (first_failure w (venv s) ops) as [k|] | ];
    try (destruct (_update (forced w s) && _write_lock (forced w s));
         [ destruct (set_lock_data w (_locker s) (gathered s) (flat_map added_package ops))
             as [[updated l']|]; [destruct updated|] | ])
  | ];
  cbn [result final trace].

Lemma is_locked_calls_of_run (s : Installer Env Lock) :
  is_locked_calls (trace (run w s)) = if _update s then [] else [LockerIsLocked].
Proof. all_cases s; filter_trace s; reflexivity. Qed.

Lemma installed_repository_loads_of_run (s : Installer Env Lock) :
  installed_repository_loads (trace (run w s)) =
    if _update (forced w s) then [] else [InstalledRepositoryLoad].
Proof. all_cases s; filter_trace s; reflexivity. Qed.

(** X9.  When [update] is unset once the toggles are forced (it was unset
    and a lock exists), [run] plans with the reconciler from one call of
    [Locker.locked_repository] with [dev_mode] and one load of the installed
    packages, calls neither the solver nor [Locker.set_lock_data], and
    leaves the lock as it was. *)
Theorem lock_replay_reads_the_lock_and_never_writes_it (s : Installer Env Lock) :
  _update (forced w s) = false ->
  _update s = false
  /\ is_locked w (_locker s) = true
  /\ planned w s =
       Returned (operations_from_lock (locked_repository w (_locker s) (_dev_mode s))
                                      (installed_packages w (venv s)))
  /\ locked_repository_calls (trace (run w s)) = [LockerLockedRepository (_dev_mode s)]
  /\ installed_repository_loads (trace (run w s)) = [InstalledRepositoryLoad]
  /\ solve_calls (trace (run w s)) = []
  /\ set_lock_data_calls (trace (run w s)) = []
  /\ _locker (final (run w s)) = _locker s.
Proof.
  intros Hup.
  rewrite planned_eq, locked_repository_calls_of_run, installed_repository_loads_of_run,
    solve_calls_of_run, set_lock_data_calls_of_run, locker_of_run, Hup.
  rewrite forced_eq in Hup. cbn in Hup. apply orb_false_iff in Hup.
  destruct Hup as [Hu Hl]. apply negb_false_iff in Hl.
  repeat (split; [assumption || reflexivity|]);
    now destruct (result_repository w s).
Qed.

(** X10.  [Locker.is_locked] is called once when [update] is unset on
    entry and not at all when it is set; in update mode the installed
    packages are never loaded, and the plan is what the solver returns from
    an empty baseline. *)
Theorem update_mode_never_loads_the_installed_packages (s : Installer Env Lock) :
  is_locked_calls (trace (run w s)) = (if _update s then [] else [LockerIsLocked])
  /\ (_update (forced w s) = true ->
        installed_repository_loads (trace (run w s)) = []
        /\ planned w s =
             match solve w [] (requires (gathered s)) (_repository s) with
             | Some ops => Returned ops
             | None => Raised ResolutionError
             end).
Proof.
  rewrite is_locked_calls_of_run, installed_repository_loads_of_run, planned_eq.
  split; [reflexivity|]. now intros ->.
Qed.

(** X11.  A run that returns did, in this order: the planning, the
    summary lines, the pip call of every planned operation in order (when
    operations are executed), then, when [update] and [write_lock] hold, the
    one call of [Locker.set_lock_data] followed by the report of the write
    when it returned true. *)
Theorem trace_of_a_run_that_returns (s : Installer Env Lock) (ops : list Operation) :
  planned w s = Returned ops ->
  result (run w s) = Returned 0%Z ->
  trace (run w s) =
    planning w s
    ++ summary ops (_execute_operations (forced w s))
    ++ (if _execute_operations (forced w s) then map pip_call ops else [])
    ++ (if _update (forced w s) && _write_lock (forced w s) then
          LockerSetLockData (gathered s) (flat_map added_package ops)
          :: match set_lock_data w (_locker s) (gathered s) (flat_map added_package ops) with
             | Some (true, _) => [IOWriteln "<info>Writing lock file</>"]
             | _ => []
             end
        else []).
Proof.
  intros Hplan. outcome_cases s. rewrite Hplan.
  destruct (_execute_operations (forced w s));
    [destruct (first_failure w (venv s) ops); [discriminate|]|];
    (destruct (_update (forced w s) && _write_lock (forced w s));
     [destruct (set_lock_data w _ _ _) as [[[] l']|]; [| |discriminate]|]);
    intros _; cbn [trace]; rewrite ?app_nil_r; reflexivity.
Qed.


Lemma flags_of_run (s : Installer Env Lock) :
  _update (final (run w s)) = _update s || negb (is_locked w (_locker s))
  /\ _dry_run (final (run w s)) = _dry_run s
  /\ _verbose (final (run w s)) = _verbose s || _dry_run s
  /\ _write_lock (final (run w s)) = _write_lock s && negb (_dry_run s)
  /\ _dev_mode (final (run w s)) = _dev_mode s
  /\ _execute_operations (final (run w s)) = _execute_operations s && negb (_dry_run s).
Proof.
  pose proof (toggles_of_run w s) as H. rewrite forced_eq in H.
  unfold toggles in H. cbn in H. injection H as -> -> -> -> -> ->. auto 10.
Qed.


(** X12.  After a dry run, [dry_run(False).run()] still calls neither the
    pip installer nor [Locker.set_lock_data] and reports no counts: the dry
    run left [execute_operations] and [write_lock] unset.  With
    [execute_operations(True)] as well, [Locker.set_lock_data] is still not
    called. *)
Theorem after_a_dry_run_unsetting_dry_run_restores_nothing (s : Installer Env Lock) :
  let s1 := final (run w (set_dry_run true s)) in
  let next := bind (dry_run false) (fun _ => run w) s1 in
  let forced_next :=
    bind (dry_run false) (fun _ => bind (execute_operations true) (fun _ => run w)) s1 in
  pip_calls (trace next) = []
  /\ set_lock_data_calls (trace next) = []
  /\ reported_operations (trace next) = []
  /\ set_lock_data_calls (trace forced_next) = [].
Proof.
  cbn zeta. unfold dry_run, execute_operations. rewrite !bind_modify.
  destruct (flags_of_run (set_dry_run true s)) as (_ & _ & _ & Hwl & _ & Hexe).
  cbn in Hwl, Hexe. rewrite andb_false_r in Hwl, Hexe.
  rewrite pip_calls_of_run, !set_lock_data_calls_of_run, reported_operations_of_run.
  set (s1 := final (run w (set_dry_run true s))) in *.
  destruct (forced_flags w (set_dry_run false s1)) as (_ & Hwl1 & Hexe1).
  destruct (forced_flags w (set_execute_operations true (set_dry_run false s1)))
    as (_ & Hwl2 & _).
  cbn in Hwl1, Hexe1, Hwl2. rewrite Hwl, ?Hexe in *. cbn in Hwl1, Hexe1, Hwl2.
  rewrite Hwl1, Hexe1, Hwl2, !andb_false_r.
  repeat split.
  - now destruct (planned w _).
  - now destruct (result_repository w _).
  - destruct (planned w _) as [[|? ?]|]; reflexivity.
  - now destruct (result_repository w _).
Qed.

(** X13.  A second run leaves the toggles as the first run left them. *)
Theorem second_run_leaves_the_toggles_of_the_first (s : Installer Env Lock) :
  toggles (final (run w (final (run w s)))) = toggles (final (run w s)).
Proof.
  rewrite (toggles_of_run w (final (run w s))), forced_eq.
  destruct (flags_of_run s) as (Hu & Hd & Hv & Hwl & Hdv & Hex).
  unfold toggles. rewrite Hu, Hd, Hv, Hwl, Hdv, Hex.
  assert (Hl : _update s || negb (is_locked w (_locker s)) = false ->
               _locker (final (run w s)) = _locker s).
  { intros H. rewrite locker_of_run.
    destruct (forced_flags w s) as (-> & _ & _). rewrite H.
    now destruct (result_repository w s). }
  destruct (_update s || negb (is_locked w (_locker s))) eqn:E.
  - cbn. now destruct (_verbose s), (_dry_run s), (_write_lock s), (_execute_operations s).
  - rewrite (Hl eq_refl). apply orb_false_iff in E. destruct E as [_ ->].
    cbn. now destruct (_verbose s), (_dry_run s), (_write_lock s), (_execute_operations s).
Qed.

(** X14.  [execute_operations(False).run()] makes no pip call, reports no
    counts and leaves the environment as it was, but plans the same
    operations and, when [update] and [write_lock] hold once the toggles are
    forced, calls [Locker.set_lock_data] with what they add. *)
Theorem without_execution_the_lock_is_written_all_the_same (s : Installer Env Lock) :
  let out := bind (execute_operations false) (fun _ => run w) s in
  pip_calls (trace out) = []
  /\ reported_operations (trace out) = []
  /\ venv (final out) = venv s
  /\ planned w (set_execute_operations false s) = planned w s
  /\ set_lock_data_calls (trace out) =
       match planned w s with
       | Returned ops =>
           if _update (forced w s) && _write_lock (forced w s)
           then [LockerSetLockData (gathered s) (flat_map added_package ops)] else []
       | Raised _ => []
       end.
Proof.
  cbn zeta. unfold execute_operations. rewrite bind_modify.
  assert (Hp : planned w (set_execute_operations false s) = planned w s)
    by (rewrite !planned_eq, !forced_eq; reflexivity).
  destruct (forced_flags w (set_execute_operations false s)) as (Hu & Hwl & Hexe).
  destruct (forced_flags w s) as (Hu' & Hwl' & _).
  cbn in Hu, Hwl, Hexe.
  rewrite pip_calls_of_run, reported_operations_of_run, venv_of_run,
    set_lock_data_calls_of_run, result_repository_eq, Hp, Hu, Hwl, Hexe, Hu', Hwl'.
  repeat split; try reflexivity; destruct (planned w s) as [[|? ?]|]; reflexivity.
Qed.


(** X16.  [dev_mode(False).run()] leaves the root package as it was; in
    update mode it asks the solver for the runtime requirements alone, and
    in lock replay it asks the locker for the locked packages without the
    development ones. *)
Theorem without_dev_mode_the_root_package_is_left_alone (s : Installer Env Lock) :
  let out := bind (dev_mode false) (fun _ => run w) s in
  _package (final out) = _package s
  /\ (_update (forced w s) = true ->
        solve_calls (trace out) =
          [SolverSolve (requires (_package s)) (_repository s) []])
  /\ (_update (forced w s) = false ->
        locked_repository_calls (trace out) = [LockerLockedRepository false]).
Proof.
  cbn zeta. unfold dev_mode. rewrite bind_modify.
  rewrite package_of_run, solve_calls_of_run, locked_repository_calls_of_run.
  assert (Hu : _update (forced w (set_dev_mode false s)) = _update (forced w s))
    by (rewrite !forced_eq; reflexivity).
  rewrite Hu. split; [reflexivity|]. split; now intros ->.
Qed.

(** X17.  An installer as [__init__] leaves it replays the lock, with the
    development packages, when there is one, calling neither the solver nor
    [Locker.set_lock_data]; when there is none it asks the solver for the
    runtime and the development requirements and, if the run returns, calls
    [Locker.set_lock_data] once. *)
Theorem a_new_installer_replays_a_lock_and_locks_without_one
    (e : Env) (p : Package) (l : Lock) (r : Repository) :
  let s := new_installer e p l r in
  (is_locked w l = true ->
     locked_repository_calls (trace (run w s)) = [LockerLockedRepository true]
     /\ solve_calls (trace (run w s)) = []
     /\ set_lock_data_calls (trace (run w s)) = [])
  /\ (is_locked w l = false ->
        solve_calls (trace (run w s)) = [SolverSolve (requires p ++ dev_requires p) r []]
        /\ locked_repository_calls (trace (run w s)) = []
        /\ (result (run w s) = Returned 0%Z ->
              exists pkgs,
                set_lock_data_calls (trace (run w s))
                = [LockerSetLockData (extend_requires (dev_requires p) p) pkgs])).
Proof.
  cbn zeta.
  rewrite locked_repository_calls_of_run, solve_calls_of_run, set_lock_data_calls_of_run,
    result_of_run, forced_eq. cbn.
  split; intros ->; cbn.
  - split; [reflexivity|]. split; [reflexivity|].
    now destruct (result_repository w _).
  - split; [reflexivity|]. split; [reflexivity|].
    destruct (result_repository w _) as [repo|]; [|discriminate].
    intros _. now exists repo.
Qed.

End Further.

Section Classify.

Lemma classify_partition (ops : list Operation) :
  forall a b c,
    let '(i, u, r) := classify ops a b c in
    length i + length u + length r = length a + length b + length c + length ops.
Proof.
  induction ops as [|op ops IH]; intros a b c.
  - cbn. lia.
  - destruct op; cbn [classify];
      match goal with |- context [classify ops ?x ?y ?z] =>
        specialize (IH x y z); destruct (classify ops x y z) as [[i u] r] end;
      rewrite ?length_app in IH; cbn in *; lia.
Qed.

(** X18.  The three lists of lines 134-151 have as many entries as there
    are operations of the job type of each, and together as many as there
    are operations. *)
Theorem every_operation_is_counted_once (ops : list Operation) :
  let '(installs, updates, uninstalls) := classify ops [] [] [] in
  length installs = count_job "install" ops
  /\ length updates = count_job "update" ops
  /\ length uninstalls = count_job "uninstall" ops
  /\ length installs + length updates + length uninstalls = length ops.
Proof.
  pose proof (classify_lengths ops [] [] []) as H.
  pose proof (classify_partition ops [] [] []) as P.
  destruct (classify ops [] [] []) as [[i u] r]. cbn in H, P.
  destruct H as (Hi & Hu & Hr). auto.
Qed.

End Classify.

Section FurtherWitnesses.
Import Sample.

Lemma replaying_witness :
  NoDup (map name [A10; B10; C10])
  /\ incl [B10; A10] [A10; B10; C10]
  /\ operations_from_lock [B10; A10] [A10; B10; C10] = [].
Proof.
  assert (Hn : NoDup (map name [A10; B10; C10])).
  { repeat constructor; cbn; intuition discriminate. }
  assert (Hi : incl [B10; A10] [A10; B10; C10]).
  { intros p [<-|[<-|[]]]; cbn; auto. }
  split; [exact Hn|]. split; [exact Hi|].
  exact (replaying_onto_the_locked_packages_plans_nothing [B10; A10] [A10; B10; C10] Hn Hi).
Defined.


Lemma execution_failure_witness :
  first_failure (world (fun _ => [])) (venv breaking_project)
    [Install A12; Install broken; Install B10] = Some 1
  /\ venv (final (run (world (fun _ => [])) breaking_project)) = [A12]
  /\ _locker (final (run (world (fun _ => [])) breaking_project)) = None.
Proof.
  split; [reflexivity|].
  pose proof (execution_failure_keeps_what_was_done (world (fun _ => [])) breaking_project
                [Install A12; Install broken; Install B10] 1 eq_refl eq_refl eq_refl)
    as (Hv & Hl & _).
  exact (conj Hv Hl).
Defined.

Lemma persistence_failure_witness :
  result_repository readonly_world fresh_project = Returned [A12]
  /\ result (run readonly_world fresh_project) = Raised PersistenceError
  /\ venv (final (run readonly_world fresh_project)) = [A12]
  /\ _locker (final (run readonly_world fresh_project)) = None.
Proof.
  split; [reflexivity|].
  pose proof (persistence_failure_after_every_operation readonly_world fresh_project [A12]
                eq_refl eq_refl eq_refl eq_refl) as (Hr & _ & _ & Hl & _).
  split; [exact Hr|]. split; [reflexivity|exact Hl].
Defined.

Lemma lock_replay_witness :
  _update (forced locked_world locked_project) = false
  /\ planned locked_world locked_project = Returned [Install B10]
  /\ set_lock_data_calls (trace (run locked_world locked_project)) = [].
Proof.
  split; [reflexivity|].
  pose proof (lock_replay_reads_the_lock_and_never_writes_it locked_world locked_project
                eq_refl) as (_ & _ & Hp & _ & _ & _ & Hs & _).
  exact (conj Hp Hs).
Defined.

Lemma trace_witness :
  result (run (world (fun _ => [])) fresh_project) = Returned 0%Z
  /\ trace (run (world (fun _ => [])) fresh_project) =
       [LockerIsLocked;
        IOWriteln "<info>Updating dependencies</>";
        SolverSolve ["a>=1.0"; "pytest"] [A12] [];
        IONewLine;
        IONewLine;
        IOWriteln (operations_line 1 0 0);
        IONewLine;
        PipInstall A12;
        LockerSetLockData (gathered fresh_project) [A12];
        IOWriteln "<info>Writing lock file</>"].
Proof.
  split; [reflexivity|].
  exact (trace_of_a_run_that_returns (world (fun _ => [])) fresh_project [Install A12]
           eq_refl eq_refl).
Defined.

End FurtherWitnesses.
